(** * LeapMotionControl: hand pose to Stewart-platform actuator commands

    A shallow embedding of [LeapMotionControl/LeapMotionControl.py] and the
    properties of its three parts:

    - [assemble_serial_output], the wire format [<v0,...,v5>];
    - the inverse kinematics computed inside [LeapListener.on_frame]
      (the 4x4 transform and the six actuator lengths);
    - the frame pacing and the serial write with its timeout recovery.

    Python floats are idealised as real numbers ([R]); the frame counter is a
    Python [int], modelled as [Z].  Printing, the serial port and the
    exceptions of [serial] are modelled by a small monad over the listener
    object that logs every effect in a trace. *)

From Stdlib Require Import Reals Lra Lia RNsatz ZArith QArith Bool List String Ascii.
From Stdlib Require Import DecimalString DecimalZ DecimalPos.
Import ListNotations.

Local Open Scope string_scope.
Local Open Scope Z_scope.
Local Open Scope R_scope.

(* ================================================================== *)
(** * Output formatting: [assemble_serial_output] *)
(* ================================================================== *)

(** Python's [int(x)] is a conversion every number type provides; the
    formatter is written once for any such type. *)
Class Number (A : Type) := int : A -> Z.

(** [int] of a float truncates toward zero.  On the reals: the floor for a
    non-negative value, the ceiling for a negative one. *)
#[export] Instance Number_R : Number R :=
  fun r => if Rle_dec 0 r then Int_part r else (- Int_part (- r))%Z.

(** The same conversion on rationals, where it computes ([Z.quot] rounds
    toward zero).  Every finite float is such a rational. *)
#[export] Instance Number_Q : Number Q :=
  fun q => Z.quot (Qnum q) (Zpos (Qden q)).

(** [str(n)] for an integer [n]: decimal digits, a leading [-] when negative. *)
Definition str (n : Z) : string := NilZero.string_of_int (Z.to_int n).

(** [sep.join(parts)]. *)
Definition join (sep : string) (parts : list string) : string :=
  String.concat sep parts.

(** [''.join(('<', ','.join([str(int(l)) for l in actuators]), '>'))] *)
Definition assemble_serial_output {A : Type} `{Number A}
    (actuators : list A) : string :=
  join "" ["<"; join "," (map (fun l => str (int l)) actuators); ">"].

(* ================================================================== *)
(** * The part of numpy the script uses *)
(* ================================================================== *)

(** An [np.matrix] is always two-dimensional: a list of rows. *)
Definition matrix := list (list R).

Module np.

Definition ncols (m : matrix) : nat := List.length (hd [] m).

(** [m.T] *)
Definition T (m : matrix) : matrix :=
  map (fun j => map (fun r => nth j r 0) m) (seq 0 (ncols m)).

Fixpoint zip_with {A B C : Type} (f : A -> B -> C)
    (u : list A) (v : list B) : list C :=
  match u, v with
  | a :: u', b :: v' => f a b :: zip_with f u' v'
  | _, _ => []
  end.

Definition sum (u : list R) : R := fold_right Rplus 0 u.

Definition dot (u v : list R) : R := sum (zip_with Rmult u v).

(** [a * b] on matrices is the matrix product. *)
Definition mul (a b : matrix) : matrix :=
  map (fun r => map (fun c => dot r c) (T b)) a.

(** [a + b] and [a - b], entry by entry (the script only combines
    matrices of equal shape). *)
Definition add (a b : matrix) : matrix := zip_with (zip_with Rplus) a b.
Definition sub (a b : matrix) : matrix := zip_with (zip_with Rminus) a b.

(** [m[i]] on a matrix is the 1 x k matrix holding row [i]. *)
Definition row (m : matrix) (i : nat) : matrix := [nth i m []].

(** [m[:n,:]] *)
Definition rows_upto (n : nat) (m : matrix) : matrix := firstn n m.

(** [np.linalg.norm(m)] of a matrix, without further arguments, is the
    Frobenius norm: the square root of the sum of the squared entries. *)
Definition norm (m : matrix) : R :=
  sqrt (sum (map (fun a => a * a) (List.concat m))).

End np.

(* ================================================================== *)
(** * Constants of the script *)
(* ================================================================== *)

(** [NO_SERIAL] and [FRAME_RATE] are the two switches of the script; the
    listener is stated for any value of them and [script] is the pair the
    source fixes. *)
Record Config := {
  NO_SERIAL : bool;
  FRAME_RATE : Z
}.

Definition script : Config := {| NO_SERIAL := false; FRAME_RATE := 10 |}.

Definition SERIAL_PORT : string := "COM3".
Definition BAUD_RATE : Z := 115200.

Definition NUM_ACTUATORS : nat := 6.
Definition HOME_POSITION_HEIGHT : R := 319.0.
Definition MIN_ACTUATOR_LEN : R := 335.0.

Definition BASE_POS : matrix :=
  [ [-246.34;   86.42; 0];
    [-198.16;  170.38; 0];
    [ 198.16;  170.38; 0];
    [ 246.34;   86.42; 0];
    [  48.48; -256.80; 0];
    [ -48.48; -256.80; 0] ].

Definition END_EFF_POS : matrix :=
  [ [-225.6;   -73.26; 0; 1.0];
    [ -49.35;  232.01; 0; 1.0];
    [  49.35;  232.01; 0; 1.0];
    [ 225.60;  -73.26; 0; 1.0];
    [ 176.25; -158.75; 0; 1.0];
    [-176.25; -158.75; 0; 1.0] ].

(* ================================================================== *)
(** * What the tracking SDK hands to the listener *)
(* ================================================================== *)

(** A [Leap.Vector]: three coordinates, and the angles the SDK derives
    from them, read by the script as attributes. *)
Record Vector := {
  x : R; y : R; z : R;
  pitch : R; yaw : R; roll : R
}.

Record Hand := {
  is_valid : bool;
  palm_position : Vector;
  direction : Vector;
  palm_normal : Vector
}.

(** A [Leap.HandList]: its members, and the member the SDK reports as
    [rightmost] (an invalid hand when the list is empty). *)
Record HandList := {
  members : list Hand;
  rightmost : Hand
}.

Definition len (hs : HandList) : Z := Z.of_nat (List.length (members hs)).

Record Frame := { hands : HandList }.

(* ================================================================== *)
(** * Inverse kinematics (lines 90-106 of [on_frame]) *)
(* ================================================================== *)

(** The 4x4 affine transform matrix built from the three angles. *)
Definition transform_matrix (pitch yaw roll : R) : matrix :=
  [ [ cos yaw * cos pitch;
      cos pitch * sin yaw;
      - sin pitch;
      0 ];
    [ cos yaw * sin pitch * sin roll - sin yaw * cos roll;
      cos yaw * cos roll + sin roll * sin yaw * sin pitch;
      cos pitch * sin roll;
      0 ];
    [ cos yaw * sin pitch * cos roll + sin yaw * sin roll;
      - cos yaw * sin roll + cos roll * sin yaw * sin pitch;
      cos pitch * cos roll;
      0 ];
    [ 0; 0; 0; 1 ] ].

(** The body of the loop over the actuators, for actuator [i]. *)
Definition actuator_length (pos : Vector) (pitch yaw roll : R) (i : nat) : R :=
  let effector_pos :=
    np.add (np.mul (transform_matrix pitch yaw roll) (np.T (np.row END_EFF_POS i)))
           (np.T [[x pos; - z pos; y pos + HOME_POSITION_HEIGHT; 0]]) in
  np.norm (np.sub (np.rows_upto 3 effector_pos) (np.T (np.row BASE_POS i)))
  - MIN_ACTUATOR_LEN.

(** [actuator_lengths] once the loop [for i in xrange(NUM_ACTUATORS)] has
    appended every length. *)
Definition actuator_lengths (pos : Vector) (pitch yaw roll : R) : list R :=
  map (actuator_length pos pitch yaw roll) (seq 0 NUM_ACTUATORS).

(* ================================================================== *)
(** * Effects: the listener object, the serial port, the console *)
(* ================================================================== *)

(** A [serial.Serial] object, as far as the script touches it. *)
Record Serial := {
  port : string;
  baudrate : Z;
  write_timeout : Z;
  is_open : bool
}.

(** The attributes [on_init] gives to the listener.  With [NO_SERIAL] set
    there is no [ser] attribute. *)
Record LeapListener := {
  frame_count : Z;
  ser : option Serial
}.

(** Everything a callback does to the outside, in the order it does it.
    [Solved] is a ghost event: it marks that the kinematics block (the
    transform matrix and the loop over the actuators) was executed, with the
    lengths it produced. *)
Inductive event :=
| Solved (lengths : list R)
| Printed (line : string)
| SerWrite (data : string)
| SerClose
| SerOpen.

Inductive exn :=
| SerialTimeoutException
| SerialException
| AttributeError.

Definition exn_eqb (a b : exn) : bool :=
  match a, b with
  | SerialTimeoutException, SerialTimeoutException
  | SerialException, SerialException
  | AttributeError, AttributeError => true
  | _, _ => false
  end.

Inductive outcome (A : Type) :=
| Normal (a : A)
| Raised (e : exn).
Arguments Normal {A} a.
Arguments Raised {A} e.

(** The result of running a piece of the listener: how it ended, the
    listener afterwards, and the effects it had. *)
Record result (A : Type) := {
  ended : outcome A;
  self_after : LeapListener;
  trace : list event
}.
Arguments ended {A} r.
Arguments self_after {A} r.
Arguments trace {A} r.

Definition M (A : Type) : Type := LeapListener -> result A.

Definition ret {A : Type} (a : A) : M A :=
  fun self => {| ended := Normal a; self_after := self; trace := [] |}.

Definition raise {A : Type} (e : exn) : M A :=
  fun self => {| ended := Raised e; self_after := self; trace := [] |}.

(** Sequencing: an exception skips the rest. *)
Definition bind {A B : Type} (m : M A) (k : A -> M B) : M B :=
  fun self =>
    match m self with
    | {| ended := Normal a; self_after := self'; trace := t |} =>
        match k a self' with
        | {| ended := o; self_after := self''; trace := t' |} =>
            {| ended := o; self_after := self''; trace := t ++ t' |}
        end
    | {| ended := Raised e; self_after := self'; trace := t |} =>
        {| ended := Raised e; self_after := self'; trace := t |}
    end.

Declare Scope listener_scope.
Delimit Scope listener_scope with listener.
Notation "x <- m ;; k" := (bind m (fun x => k))
  (at level 61, m at next level, right associativity) : listener_scope.
Notation "m ;; k" := (bind m (fun _ => k))
  (at level 61, right associativity) : listener_scope.
Local Open Scope listener_scope.

(** [try: body / except e: handler] *)
Definition try_except {A : Type} (body : M A) (e : exn) (handler : M A) : M A :=
  fun self =>
    match body self with
    | {| ended := Normal a; self_after := self'; trace := t |} =>
        {| ended := Normal a; self_after := self'; trace := t |}
    | {| ended := Raised e'; self_after := self'; trace := t |} =>
        if exn_eqb e' e then
          match handler self' with
          | {| ended := o; self_after := self''; trace := t' |} =>
              {| ended := o; self_after := self''; trace := t ++ t' |}
          end
        else {| ended := Raised e'; self_after := self'; trace := t |}
    end.

(** [for __ in xrange(n): body] *)
Fixpoint for_xrange (n : nat) (body : M unit) : M unit :=
  match n with
  | O => ret tt
  | S n' => body ;; for_xrange n' body
  end.

Definition emit (e : event) : M unit :=
  fun self => {| ended := Normal tt; self_after := self; trace := [e] |}.

(** [print line] *)
Definition print (line : string) : M unit := emit (Printed line).

Definition get_frame_count : M Z :=
  fun self => {| ended := Normal (frame_count self); self_after := self; trace := [] |}.

Definition set_frame_count (n : Z) : M unit :=
  fun self => {| ended := Normal tt;
                 self_after := {| frame_count := n; ser := ser self |};
                 trace := [] |}.

(** Reading [self.ser]. *)
Definition get_ser : M Serial :=
  fun self =>
    match ser self with
    | Some s => {| ended := Normal s; self_after := self; trace := [] |}
    | None => {| ended := Raised AttributeError; self_after := self; trace := [] |}
    end.

Definition set_ser (s : Serial) : M unit :=
  fun self => {| ended := Normal tt;
                 self_after := {| frame_count := frame_count self; ser := Some s |};
                 trace := [] |}.

(** What the device does with a write, decided by the outside world: it
    takes the data, it does not take it within [write_timeout], or the link
    fails in another way. *)
Inductive write_result := Written | TimedOut | LinkFailed.

(** [self.ser.write(data)]: on a closed port the library raises without
    touching the device. *)
Definition ser_write (w : write_result) (data : string) : M unit :=
  s <- get_ser ;;
  if is_open s then
    emit (SerWrite data) ;;
    match w with
    | Written => ret tt
    | TimedOut => raise SerialTimeoutException
    | LinkFailed => raise SerialException
    end
  else raise SerialException.

Definition with_open (s : Serial) (b : bool) : Serial :=
  {| port := port s; baudrate := baudrate s;
     write_timeout := write_timeout s; is_open := b |}.

(** [self.ser.close()] *)
Definition ser_close : M unit :=
  s <- get_ser ;;
  emit SerClose ;;
  set_ser (with_open s false).

(** [self.ser.open()]: the library refuses to open an open port. *)
Definition ser_open : M unit :=
  s <- get_ser ;;
  if is_open s then raise SerialException
  else emit SerOpen ;; set_ser (with_open s true).

(* ================================================================== *)
(** * [LeapListener] *)
(* ================================================================== *)

Section Listener.

Variable cfg : Config.

(** [on_init]: the constructor [serial.Serial(port=...)] opens the port. *)
Definition on_init : M unit :=
  print "Initializing" ;;
  set_frame_count 0 ;;
  if negb (NO_SERIAL cfg) then
    emit SerOpen ;;
    set_ser {| port := SERIAL_PORT; baudrate := BAUD_RATE;
               write_timeout := 1; is_open := true |}
  else ret tt.

(** [on_exit] *)
Definition on_exit : M unit :=
  print "Exited" ;;
  if negb (NO_SERIAL cfg) then ser_close else ret tt.

(** [on_connect] and [on_disconnect] only report to the console. *)
Definition on_connect : M unit := print "Connected".

Definition on_disconnect : M unit := print "Disconnected".

(** [on_frame], for the frame the controller returns and the answer [w]
    the device gives should this call write to it. *)
Definition on_frame (frame : Frame) (w : write_result) : M unit :=
  if (len (hands frame) >? 0)%Z then
    let hand := rightmost (hands frame) in
    if is_valid hand then
      let pos := palm_position hand in
      let pitch := pitch (direction hand) in
      let yaw := yaw (direction hand) in
      let roll := roll (palm_normal hand) in
      let actuator_lengths := actuator_lengths pos pitch yaw roll in
      emit (Solved actuator_lengths) ;;
      let ser_string := assemble_serial_output actuator_lengths in
      count <- get_frame_count ;;
      if (count >? FRAME_RATE cfg)%Z then
        print ser_string ;;
        (if negb (NO_SERIAL cfg) then
           try_except
             (ser_write w ser_string)
             SerialTimeoutException
             (for_xrange 5 (print "Timeout detected!") ;;
              ser_close ;;
              ser_open)
         else ret tt) ;;
        set_frame_count 0
      else
        set_frame_count (count + 1)
    else ret tt
  else ret tt.

(** A session: the SDK calls [on_frame] once per frame, in order, and an
    exception that leaves a callback ends the session.  The result keeps
    the trace of each processed frame apart. *)
Fixpoint session (self : LeapListener) (input : list (Frame * write_result))
    : list (list event) * outcome unit * LeapListener :=
  match input with
  | [] => ([], Normal tt, self)
  | (frame, w) :: rest =>
      match on_frame frame w self with
      | {| ended := Normal _; self_after := self'; trace := t |} =>
          let '(ts, o, self'') := session self' rest in
          (t :: ts, o, self'')
      | {| ended := Raised e; self_after := self'; trace := t |} =>
          ([t], Raised e, self')
      end
  end.

(** What the controller calls on a listener it holds. *)
Inductive callback :=
| Connect
| Disconnect
| NewFrame (frame : Frame) (w : write_result).

Definition dispatch (c : callback) : M unit :=
  match c with
  | Connect => on_connect
  | Disconnect => on_disconnect
  | NewFrame frame w => on_frame frame w
  end.

Fixpoint deliver (cs : list callback) : M unit :=
  match cs with
  | [] => ret tt
  | c :: cs' => dispatch c ;; deliver cs'
  end.

(** [main], as the listener lives it: [add_listener] makes the controller
    call [on_init], the callbacks [cs] arrive while [raw_input] waits for the
    operator, and [remove_listener] makes it call [on_exit].  (The prompt of
    [raw_input] is written by the main thread and is no effect of the
    listener.) *)
Definition main (cs : list callback) : M unit :=
  on_init ;; deliver cs ;; on_exit.

End Listener.

(** The listener as the SDK has it after [on_init]. *)
Definition initial (cfg : Config) : LeapListener :=
  self_after (on_init cfg {| frame_count := 0; ser := None |}).

(** ** Reading a trace *)

Definition is_write (e : event) : bool :=
  match e with SerWrite _ => true | _ => false end.
Definition is_close (e : event) : bool :=
  match e with SerClose => true | _ => false end.
Definition is_open_call (e : event) : bool :=
  match e with SerOpen => true | _ => false end.
Definition is_solved (e : event) : bool :=
  match e with Solved _ => true | _ => false end.

Definition count_of (p : event -> bool) (t : list event) : nat :=
  List.length (filter p t).

(** The data handed to [ser.write], in order. *)
Definition written (t : list event) : list string :=
  flat_map (fun e => match e with SerWrite d => [d] | _ => [] end) t.

(** A frame transmits when its callback calls [ser.write]. *)
Definition transmits (t : list event) : bool := existsb is_write t.

(** ** Frames and listeners the statements speak of *)

(** The guard of [on_frame]: the frame has a hand and the rightmost one is
    valid. *)
Definition has_valid_hand (frame : Frame) : bool :=
  (len (hands frame) >? 0)%Z && is_valid (rightmost (hands frame)).

(** The lengths and the command string [on_frame] computes from a hand. *)
Definition lengths_of (hand : Hand) : list R :=
  actuator_lengths (palm_position hand) (pitch (direction hand))
                   (yaw (direction hand)) (roll (palm_normal hand)).

Definition ser_string_of (frame : Frame) : string :=
  assemble_serial_output (lengths_of (rightmost (hands frame))).

(** The listener holds a serial port and the port is open. *)
Definition link_up (self : LeapListener) : bool :=
  match ser self with
  | Some s => is_open s
  | None => false
  end.

(** A stream the session survives: every frame has a valid hand and the
    device never fails other than by timing out. *)
Definition steady (input : list (Frame * write_result)) : Prop :=
  Forall (fun fw => has_valid_hand (fst fw) = true /\ snd fw <> LinkFailed) input.

(** The three parts of a session's result. *)
Definition traces (cfg : Config) (self : LeapListener)
    (input : list (Frame * write_result)) : list (list event) :=
  fst (fst (session cfg self input)).

Definition session_end (cfg : Config) (self : LeapListener)
    (input : list (Frame * write_result)) : outcome unit :=
  snd (fst (session cfg self input)).

Definition final (cfg : Config) (self : LeapListener)
    (input : list (Frame * write_result)) : LeapListener :=
  snd (session cfg self input).

(** Which frames of a session transmitted. *)
Definition transmissions (cfg : Config) (self : LeapListener)
    (input : list (Frame * write_result)) : list bool :=
  map transmits (traces cfg self input).

(** The counter after one more callback on a frame with a valid hand. *)
Definition next_count (cfg : Config) (count : Z) : Z :=
  if (count >? FRAME_RATE cfg)%Z then 0%Z else (count + 1)%Z.

Definition count_true (l : list bool) : nat :=
  List.length (filter (fun b : bool => b) l).

(** The flags of the [n] frames from frame [j] on. *)
Definition window (j n : nat) (l : list bool) : list bool :=
  firstn n (skipn j l).

(** ** Sample input *)

Definition vec (a b c : R) : Vector :=
  {| x := a; y := b; z := c; pitch := 0; yaw := 0; roll := 0 |}.

Definition flat_hand : Hand :=
  {| is_valid := true; palm_position := vec 0 200 0;
     direction := vec 0 0 (-1); palm_normal := vec 0 (-1) 0 |}.

Definition invalid_hand : Hand :=
  {| is_valid := false; palm_position := vec 0 0 0;
     direction := vec 0 0 0; palm_normal := vec 0 0 0 |}.

Definition frame_with_hand : Frame :=
  {| hands := {| members := [flat_hand]; rightmost := flat_hand |} |}.

Definition frame_without_hands : Frame :=
  {| hands := {| members := []; rightmost := invalid_hand |} |}.

Definition frame_with_invalid_hand : Frame :=
  {| hands := {| members := [invalid_hand]; rightmost := invalid_hand |} |}.

(** A stream of [n] such frames, each write taken by the device. *)
Definition valid_frames (n : nat) : list (Frame * write_result) :=
  repeat (frame_with_hand, Written) n.

(** The script's listener once [FRAME_RATE + 1] such frames have passed:
    the next frame with a valid hand transmits. *)
Definition due : LeapListener :=
  final script (initial script) (valid_frames 11).

(** ** The solver in the words of the design document *)

Module Spec.

(** Entry (i, j) of the rotation matrix R. *)
Definition R_entry (pitch yaw roll : R) (i j : nat) : R :=
  match i, j with
  | 0%nat, 0%nat => cos yaw * cos pitch
  | 0%nat, 1%nat => cos pitch * sin yaw
  | 0%nat, 2%nat => - sin pitch
  | 1%nat, 0%nat => cos yaw * sin pitch * sin roll - sin yaw * cos roll
  | 1%nat, 1%nat => cos yaw * cos roll + sin roll * sin yaw * sin pitch
  | 1%nat, 2%nat => cos pitch * sin roll
  | 2%nat, 0%nat => cos yaw * sin pitch * cos roll + sin yaw * sin roll
  | 2%nat, 1%nat => - cos yaw * sin roll + cos roll * sin yaw * sin pitch
  | 2%nat, 2%nat => cos pitch * cos roll
  | 3%nat, 3%nat => 1
  | _, _ => 0
  end.

(** Component [j] of effector[i] and of base[i]. *)
Definition effector (i j : nat) : R := nth j (nth i END_EFF_POS []) 0.
Definition base (i j : nat) : R := nth j (nth i BASE_POS []) 0.

(** offset = (x, -z, y + HOME_HEIGHT, 0) *)
Definition offset (pos : Vector) (k : nat) : R :=
  match k with
  | 0%nat => x pos
  | 1%nat => - z pos
  | 2%nat => y pos + HOME_POSITION_HEIGHT
  | _ => 0
  end.

(** Component [k] of effector_world = R . effector[i]^t + offset. *)
Definition effector_world (pos : Vector) (pitch yaw roll : R) (i k : nat) : R :=
  R_entry pitch yaw roll k 0 * effector i 0
  + R_entry pitch yaw roll k 1 * effector i 1
  + R_entry pitch yaw roll k 2 * effector i 2
  + R_entry pitch yaw roll k 3 * effector i 3
  + offset pos k.

Definition euclidean_norm (a b c : R) : R := sqrt (a * a + b * b + c * c).

(** length[i] = euclidean_norm(effector_world_3d - base[i]) - MIN_ACTUATOR_LEN *)
Definition length (pos : Vector) (pitch yaw roll : R) (i : nat) : R :=
  euclidean_norm (effector_world pos pitch yaw roll i 0 - base i 0)
                 (effector_world pos pitch yaw roll i 1 - base i 1)
                 (effector_world pos pitch yaw roll i 2 - base i 2)
  - MIN_ACTUATOR_LEN.

(** The 4x4 identity matrix, entry by entry. *)
Definition identity (n : nat) : matrix :=
  map (fun i => map (fun j => if Nat.eqb i j then 1 else 0) (seq 0 n)) (seq 0 n).

End Spec.

(** ** The wire format in the words of the design document *)

(** [n] is [v] truncated toward zero: the integer of the same sign whose
    magnitude is the whole part of the magnitude of [v]. *)
Definition truncated_toward_zero (v : R) (n : Z) : Prop :=
  Rabs (IZR n) <= Rabs v < Rabs (IZR n) + 1 /\ 0 <= IZR n * v.

(** The characters of the wire format. *)
Definition wire_char (c : ascii) : bool :=
  existsb (Ascii.eqb c) (list_ascii_of_string "<>,-0123456789").

Fixpoint all_chars (p : ascii -> bool) (s : string) : bool :=
  match s with
  | EmptyString => true
  | String c s' => p c && all_chars p s'
  end.

(** Reading a decimal integer back, as the firmware at the other end of the
    link would. *)
Definition int_of_str (s : string) : option Z :=
  option_map Z.of_int (NilZero.int_of_string s).

(** Reading a command back: between the brackets, the decimal integers
    separated by commas. *)
Fixpoint split_on (sep : ascii) (s : string) : list string :=
  match s with
  | EmptyString => [EmptyString]
  | String c s' =>
      if Ascii.eqb c sep then EmptyString :: split_on sep s'
      else match split_on sep s' with
           | [] => [String c EmptyString]
           | h :: t => String c h :: t
           end
  end.

Fixpoint strip_last (c : ascii) (s : string) : option string :=
  match s with
  | EmptyString => None
  | String a EmptyString => if Ascii.eqb a c then Some EmptyString else None
  | String a s' => option_map (String a) (strip_last c s')
  end.

Fixpoint all_some {A : Type} (l : list (option A)) : option (list A) :=
  match l with
  | [] => Some []
  | None :: _ => None
  | Some a :: l' => option_map (cons a) (all_some l')
  end.

Definition read_command (s : string) : option (list Z) :=
  match s with
  | String "<" rest =>
      match strip_last ">" rest with
      | Some body => all_some (map int_of_str (split_on "," body))
      | None => None
      end
  | _ => None
  end.

(** The same stream with every write taken by the device. *)
Definition all_written (input : list (Frame * write_result))
    : list (Frame * write_result) :=
  map (fun fw => (fst fw, Written)) input.

(** The callbacks among which no write fails other than by timing out. *)
Definition no_link_failure (c : callback) : Prop :=
  match c with
  | NewFrame _ LinkFailed => False
  | _ => True
  end.

(** The platform is built symmetric about the plane x = 0: actuator [i]
    mirrors actuator [mirror i]. *)
Definition mirror (i : nat) : nat :=
  match i with
  | 0 => 3 | 1 => 2 | 2 => 1 | 3 => 0 | 4 => 5 | 5 => 4 | _ => i
  end%nat.

Definition mirror_pos (pos : Vector) : Vector :=
  {| x := - x pos; y := y pos; z := z pos;
     pitch := pitch pos; yaw := yaw pos; roll := roll pos |}.

(* ================================================================== *)
(** * One call of [on_frame] *)
(* ================================================================== *)

Ltac step := cbn -[actuator_lengths assemble_serial_output Z.gtb Z.add].

Ltac run_listener :=
  unfold on_frame, try_except, ser_write, ser_close, ser_open, for_xrange,
    print, emit, get_frame_count, set_frame_count, get_ser, set_ser,
    bind, ret, raise; step.

Lemma has_valid_hand_false (frame : Frame) :
  has_valid_hand frame = false ->
  (len (hands frame) >? 0)%Z = false \/
  is_valid (rightmost (hands frame)) = false.
Proof.
  unfold has_valid_hand. intros H.
  apply andb_false_iff in H. exact H.
Qed.

Lemma has_valid_hand_true (frame : Frame) :
  has_valid_hand frame = true ->
  (len (hands frame) >? 0)%Z = true /\
  is_valid (rightmost (hands frame)) = true.
Proof.
  unfold has_valid_hand. intros H.
  apply andb_true_iff in H. exact H.
Qed.

(** Without a valid hand the callback is a no-op. *)
Lemma on_frame_no_valid_hand (cfg : Config) (frame : Frame)
    (w : write_result) (self : LeapListener) :
  has_valid_hand frame = false ->
  on_frame cfg frame w self = ret tt self.
Proof.
  intros H. unfold on_frame.
  destruct (has_valid_hand_false frame H) as [E | E].
  - rewrite E. reflexivity.
  - rewrite E. destruct (len (hands frame) >? 0)%Z; reflexivity.
Qed.

(** A valid hand while the counter has not passed [FRAME_RATE]: the lengths
    are computed, nothing is sent, the counter goes up by one. *)
Lemma on_frame_skip (cfg : Config) (frame : Frame)
    (w : write_result) (self : LeapListener) :
  has_valid_hand frame = true ->
  (frame_count self <= FRAME_RATE cfg)%Z ->
  on_frame cfg frame w self =
    {| ended := Normal tt;
       self_after := {| frame_count := frame_count self + 1; ser := ser self |};
       trace := [Solved (lengths_of (rightmost (hands frame)))] |}.
Proof.
  intros Hv Hc. apply has_valid_hand_true in Hv. destruct Hv as [Hl Hh].
  assert (G : (frame_count self >? FRAME_RATE cfg)%Z = false)
    by (rewrite Z.gtb_ltb; apply Z.ltb_ge; lia).
  destruct self as [c s]. cbn [frame_count] in *.
  unfold on_frame. rewrite Hl, Hh. run_listener. rewrite G. step. reflexivity.
Qed.

Ltac open_listener self Hu :=
  let c := fresh "c" in
  let p := fresh "p" in
  let b := fresh "b" in
  let t := fresh "t" in
  let o := fresh "o" in
  destruct self as [c [[p b t o]|]]; cbn in Hu; [subst o | discriminate].

(** A valid hand once the counter has passed [FRAME_RATE], and the device
    takes the data. *)
Lemma on_frame_send (cfg : Config) (frame : Frame) (self : LeapListener) :
  NO_SERIAL cfg = false ->
  link_up self = true ->
  has_valid_hand frame = true ->
  (frame_count self > FRAME_RATE cfg)%Z ->
  on_frame cfg frame Written self =
    {| ended := Normal tt;
       self_after := {| frame_count := 0; ser := ser self |};
       trace := [Solved (lengths_of (rightmost (hands frame)));
                 Printed (ser_string_of frame);
                 SerWrite (ser_string_of frame)] |}.
Proof.
  intros Hn Hu Hv Hc. apply has_valid_hand_true in Hv. destruct Hv as [Hl Hh].
  open_listener self Hu. cbn [frame_count] in Hc.
  assert (G : (c >? FRAME_RATE cfg)%Z = true)
    by (rewrite Z.gtb_ltb; apply Z.ltb_lt; lia).
  unfold on_frame. rewrite Hl, Hh, Hn. run_listener. rewrite G. step.
  reflexivity.
Qed.

(** The same frame when the write times out. *)
Lemma on_frame_timeout (cfg : Config) (frame : Frame) (self : LeapListener) :
  NO_SERIAL cfg = false ->
  link_up self = true ->
  has_valid_hand frame = true ->
  (frame_count self > FRAME_RATE cfg)%Z ->
  on_frame cfg frame TimedOut self =
    {| ended := Normal tt;
       self_after := {| frame_count := 0; ser := ser self |};
       trace := [Solved (lengths_of (rightmost (hands frame)));
                 Printed (ser_string_of frame);
                 SerWrite (ser_string_of frame);
                 Printed "Timeout detected!"; Printed "Timeout detected!";
                 Printed "Timeout detected!"; Printed "Timeout detected!";
                 Printed "Timeout detected!";
                 SerClose; SerOpen] |}.
Proof.
  intros Hn Hu Hv Hc. apply has_valid_hand_true in Hv. destruct Hv as [Hl Hh].
  open_listener self Hu. cbn [frame_count] in Hc.
  assert (G : (c >? FRAME_RATE cfg)%Z = true)
    by (rewrite Z.gtb_ltb; apply Z.ltb_lt; lia).
  unfold on_frame. rewrite Hl, Hh, Hn. run_listener. rewrite G. step.
  reflexivity.
Qed.

(** The same frame when the link fails otherwise: the exception leaves the
    callback and the counter is not reset. *)
Lemma on_frame_link_failed (cfg : Config) (frame : Frame) (self : LeapListener) :
  NO_SERIAL cfg = false ->
  link_up self = true ->
  has_valid_hand frame = true ->
  (frame_count self > FRAME_RATE cfg)%Z ->
  on_frame cfg frame LinkFailed self =
    {| ended := Raised SerialException;
       self_after := self;
       trace := [Solved (lengths_of (rightmost (hands frame)));
                 Printed (ser_string_of frame);
                 SerWrite (ser_string_of frame)] |}.
Proof.
  intros Hn Hu Hv Hc. apply has_valid_hand_true in Hv. destruct Hv as [Hl Hh].
  open_listener self Hu. cbn [frame_count] in Hc.
  assert (G : (c >? FRAME_RATE cfg)%Z = true)
    by (rewrite Z.gtb_ltb; apply Z.ltb_lt; lia).
  unfold on_frame. rewrite Hl, Hh, Hn. run_listener. rewrite G. step.
  reflexivity.
Qed.

(** Any frame with a valid hand, as long as the link does not fail: the
    callback returns, the port is the same open port, the counter follows
    [next_count], and the frame transmits exactly when the counter had passed
    [FRAME_RATE]. *)
Lemma on_frame_valid (cfg : Config) (frame : Frame)
    (w : write_result) (self : LeapListener) :
  NO_SERIAL cfg = false ->
  link_up self = true ->
  has_valid_hand frame = true ->
  w <> LinkFailed ->
  let r := on_frame cfg frame w self in
  ended r = Normal tt /\
  self_after r = {| frame_count := next_count cfg (frame_count self);
                    ser := ser self |} /\
  transmits (trace r) = (frame_count self >? FRAME_RATE cfg)%Z.
Proof.
  intros Hn Hu Hv Hw. unfold next_count.
  destruct (frame_count self >? FRAME_RATE cfg)%Z eqn:G.
  - assert (Hc : (frame_count self > FRAME_RATE cfg)%Z)
      by (rewrite Z.gtb_ltb in G; apply Z.ltb_lt in G; lia).
    destruct w.
    + cbv zeta. rewrite (on_frame_send cfg frame self Hn Hu Hv Hc).
      step. repeat split.
    + cbv zeta. rewrite (on_frame_timeout cfg frame self Hn Hu Hv Hc).
      step. repeat split.
    + congruence.
  - assert (Hc : (frame_count self <= FRAME_RATE cfg)%Z)
      by (rewrite Z.gtb_ltb in G; apply Z.ltb_ge in G; lia).
    cbv zeta. rewrite (on_frame_skip cfg frame w self Hv Hc).
    step. repeat split.
Qed.

(** Whatever the frame and the device do, one callback leaves the counter
    where it was, adds one to a counter that has not passed [FRAME_RATE], or
    resets it. *)
Lemma on_frame_count (cfg : Config) (frame : Frame)
    (w : write_result) (self : LeapListener) :
  let c := frame_count self in
  let c' := frame_count (self_after (on_frame cfg frame w self)) in
  c' = c \/ (c <= FRAME_RATE cfg /\ c' = c + 1)%Z \/ (c > FRAME_RATE cfg /\ c' = 0)%Z.
Proof.
  cbv zeta.
  destruct (has_valid_hand frame) eqn:Hv.
  - apply has_valid_hand_true in Hv. destruct Hv as [Hl Hh].
    unfold on_frame. rewrite Hl, Hh. run_listener.
    destruct (frame_count self >? FRAME_RATE cfg)%Z eqn:G.
    + assert (Hc : (frame_count self > FRAME_RATE cfg)%Z)
        by (rewrite Z.gtb_ltb in G; apply Z.ltb_lt in G; lia).
      destruct (NO_SERIAL cfg); step.
      * right; right. split; [exact Hc | reflexivity].
      * destruct (ser self) as [s|] eqn:Hs; step; [|left; reflexivity].
        destruct (is_open s) eqn:Ho; step; [|left; reflexivity].
        destruct w; step.
        -- right; right. split; [exact Hc | reflexivity].
        -- rewrite Hs. step.
           right; right. split; [exact Hc | reflexivity].
        -- left; reflexivity.
    + assert (Hc : (frame_count self <= FRAME_RATE cfg)%Z)
        by (rewrite Z.gtb_ltb in G; apply Z.ltb_ge in G; lia).
      step. right; left. split; [exact Hc | reflexivity].
  - rewrite (on_frame_no_valid_hand cfg frame w self Hv). left; reflexivity.
Qed.

(** The counter never leaves [0, FRAME_RATE + 1]. *)
Lemma on_frame_count_range (cfg : Config) (frame : Frame)
    (w : write_result) (self : LeapListener) :
  (0 <= FRAME_RATE cfg)%Z ->
  (0 <= frame_count self <= FRAME_RATE cfg + 1)%Z ->
  (0 <= frame_count (self_after (on_frame cfg frame w self))
     <= FRAME_RATE cfg + 1)%Z.
Proof.
  intros HN Hc.
  pose proof (on_frame_count cfg frame w self) as H. cbv zeta in H.
  lia.
Qed.

(** One step of a session, by the fields of the callback's result. *)
Lemma session_cons (cfg : Config) (frame : Frame) (w : write_result)
    (rest : list (Frame * write_result)) (self : LeapListener) :
  session cfg self ((frame, w) :: rest) =
    let r := on_frame cfg frame w self in
    match ended r with
    | Normal _ =>
        (trace r :: fst (fst (session cfg (self_after r) rest)),
         snd (fst (session cfg (self_after r) rest)),
         snd (session cfg (self_after r) rest))
    | Raised e => ([trace r], Raised e, self_after r)
    end.
Proof.
  cbn [session]. destruct (on_frame cfg frame w self) as [[a | e] self' t];
    cbn [ended self_after trace]; [|reflexivity].
  destruct (session cfg self' rest) as [[ts o] self'']. reflexivity.
Qed.

Lemma session_count_range (cfg : Config) (input : list (Frame * write_result)) :
  (0 <= FRAME_RATE cfg)%Z ->
  forall self,
  (0 <= frame_count self <= FRAME_RATE cfg + 1)%Z ->
  (0 <= frame_count (final cfg self input) <= FRAME_RATE cfg + 1)%Z.
Proof.
  intros HN. unfold final.
  induction input as [|[frame w] rest IH]; intros self Hc.
  - exact Hc.
  - pose proof (on_frame_count_range cfg frame w self HN Hc) as Hc'.
    rewrite session_cons. cbv zeta.
    destruct (ended (on_frame cfg frame w self)); cbn [snd].
    + apply IH. exact Hc'.
    + exact Hc'.
Qed.

(** ** Sessions over a steady stream *)

Lemma next_count_mod (cfg : Config) (c : Z) :
  (0 <= FRAME_RATE cfg)%Z ->
  (0 <= c <= FRAME_RATE cfg + 1)%Z ->
  next_count cfg c = ((c + 1) mod (FRAME_RATE cfg + 2))%Z.
Proof.
  intros HN Hc. unfold next_count.
  destruct (c >? FRAME_RATE cfg)%Z eqn:G; rewrite Z.gtb_ltb in G.
  - apply Z.ltb_lt in G.
    replace (c + 1)%Z with (1 * (FRAME_RATE cfg + 2))%Z by lia.
    rewrite Z.mod_mul by lia. reflexivity.
  - apply Z.ltb_ge in G. rewrite Z.mod_small by lia. reflexivity.
Qed.

Lemma session_cons_normal (cfg : Config) (frame : Frame) (w : write_result)
    (rest : list (Frame * write_result)) (self : LeapListener) :
  ended (on_frame cfg frame w self) = Normal tt ->
  traces cfg self ((frame, w) :: rest) =
    trace (on_frame cfg frame w self)
    :: traces cfg (self_after (on_frame cfg frame w self)) rest /\
  session_end cfg self ((frame, w) :: rest) =
    session_end cfg (self_after (on_frame cfg frame w self)) rest /\
  final cfg self ((frame, w) :: rest) =
    final cfg (self_after (on_frame cfg frame w self)) rest.
Proof.
  intros H. unfold traces, session_end, final. rewrite session_cons.
  cbv zeta. rewrite H. repeat split.
Qed.

(** Over a steady stream the session processes every frame, keeps the port,
    counts modulo [FRAME_RATE + 2], and frame number [k] (from 0) transmits
    exactly when the counter before it stands at [FRAME_RATE + 1]. *)
Lemma session_steady (cfg : Config) (input : list (Frame * write_result)) :
  NO_SERIAL cfg = false ->
  (0 <= FRAME_RATE cfg)%Z ->
  steady input ->
  forall self,
  link_up self = true ->
  (0 <= frame_count self <= FRAME_RATE cfg + 1)%Z ->
  session_end cfg self input = Normal tt /\
  List.length (traces cfg self input) = List.length input /\
  ser (final cfg self input) = ser self /\
  frame_count (final cfg self input) =
    ((frame_count self + Z.of_nat (List.length input))
       mod (FRAME_RATE cfg + 2))%Z /\
  forall k, (k < List.length input)%nat ->
    nth k (transmissions cfg self input) false =
    ((frame_count self + Z.of_nat k) mod (FRAME_RATE cfg + 2)
       =? FRAME_RATE cfg + 1)%Z.
Proof.
  intros Hn HN Hs.
  induction Hs as [|[frame w] rest [Hv Hw] Hrest IH]; intros self Hu Hc.
  - cbn. repeat split.
    + rewrite Z.add_0_r, Z.mod_small by lia. reflexivity.
    + intros k Hk. inversion Hk.
  - cbn [fst snd] in Hv, Hw.
    destruct (on_frame_valid cfg frame w self Hn Hu Hv Hw) as (He & Ha & Ht).
    destruct (session_cons_normal cfg frame w rest self He) as (E1 & E2 & E3).
    assert (Hu' : link_up (self_after (on_frame cfg frame w self)) = true)
      by (rewrite Ha; exact Hu).
    assert (Hc' : (0 <= frame_count (self_after (on_frame cfg frame w self))
                     <= FRAME_RATE cfg + 1)%Z)
      by (apply on_frame_count_range; assumption).
    destruct (IH _ Hu' Hc') as (I1 & I2 & I3 & I4 & I5).
    assert (Hnext : frame_count (self_after (on_frame cfg frame w self))
                    = ((frame_count self + 1) mod (FRAME_RATE cfg + 2))%Z)
      by (rewrite Ha; cbn; apply next_count_mod; assumption).
    unfold transmissions. rewrite E1, E2, E3.
    split; [exact I1|]. split; [cbn; rewrite I2; reflexivity|].
    split; [rewrite I3, Ha; reflexivity|].
    split.
    + rewrite I4, Hnext. rewrite Zplus_mod_idemp_l.
      f_equal. cbn [List.length]. lia.
    + intros [|k] Hk.
      * cbn. rewrite Ht. rewrite Z.add_0_r, Z.mod_small by lia.
        rewrite Z.gtb_ltb.
        destruct (Z.ltb_spec (FRAME_RATE cfg) (frame_count self));
          destruct (Z.eqb_spec (frame_count self) (FRAME_RATE cfg + 1));
          try reflexivity; lia.
      * cbn [map nth]. cbn in Hk.
        unfold transmissions in I5. rewrite (I5 k) by lia.
        rewrite Hnext, Zplus_mod_idemp_l. do 2 f_equal. lia.
Qed.

(* ================================================================== *)
(** * The wire format *)
(* ================================================================== *)

Lemma Int_part_nonneg (r : R) : 0 <= r -> (0 <= Int_part r)%Z.
Proof.
  intros Hr. destruct (base_Int_part r) as [_ H].
  assert (L : IZR (-1) < IZR (Int_part r)) by (simpl; lra).
  apply lt_IZR in L. lia.
Qed.

(** [int] on a real is truncation toward zero. *)
Lemma int_truncates (v : R) : truncated_toward_zero v (int v).
Proof.
  unfold truncated_toward_zero, int, Number_R.
  destruct (Rle_dec 0 v) as [Hv | Hv].
  - pose proof (Int_part_nonneg v Hv) as Hn. apply IZR_le in Hn.
    destruct (base_Int_part v) as [H1 H2].
    rewrite (Rabs_pos_eq (IZR (Int_part v))) by exact Hn.
    rewrite (Rabs_pos_eq v) by exact Hv.
    repeat split; try lra. apply Rmult_le_pos; assumption.
  - assert (Hv' : 0 <= - v) by lra.
    pose proof (Int_part_nonneg (- v) Hv') as Hn. apply IZR_le in Hn.
    destruct (base_Int_part (- v)) as [H1 H2].
    rewrite opp_IZR. rewrite Rabs_Ropp.
    rewrite (Rabs_pos_eq (IZR (Int_part (- v)))) by exact Hn.
    rewrite (Rabs_left v) by lra.
    repeat split; try lra.
    replace (- IZR (Int_part (- v)) * v) with (IZR (Int_part (- v)) * - v) by ring.
    apply Rmult_le_pos; assumption.
Qed.

(** Truncation toward zero determines the integer. *)
Lemma truncated_toward_zero_unique (v : R) (n m : Z) :
  truncated_toward_zero v n -> truncated_toward_zero v m -> n = m.
Proof.
  unfold truncated_toward_zero. intros [[A1 A2] A3] [[B1 B2] B3].
  assert (D : -1 < IZR n - IZR m < 1).
  { unfold Rabs in *.
    destruct (Rcase_abs (IZR n)), (Rcase_abs (IZR m)), (Rcase_abs v);
      split; nra. }
  destruct D as [D1 D2].
  assert (L1 : IZR (n - m) < IZR 1) by (rewrite minus_IZR; lra).
  assert (L2 : IZR (-1) < IZR (n - m)) by (rewrite minus_IZR; lra).
  apply lt_IZR in L1, L2. lia.
Qed.

(** Computing [int] of a given real: exhibit the integer. *)
Lemma int_is (v : R) (n : Z) : truncated_toward_zero v n -> int v = n.
Proof.
  intros H. apply (truncated_toward_zero_unique v); [apply int_truncates | exact H].
Qed.

(** [str] writes wire characters only, and reads back as the same integer. *)
Lemma string_of_uint_wire (u : Decimal.uint) :
  all_chars wire_char (NilEmpty.string_of_uint u) = true.
Proof.
  induction u; cbn [NilEmpty.string_of_uint all_chars]; try reflexivity;
    rewrite IHu; reflexivity.
Qed.

Lemma str_wire (n : Z) : all_chars wire_char (str n) = true.
Proof.
  unfold str, NilZero.string_of_int, NilZero.string_of_uint.
  destruct (Z.to_int n) as [u | u]; destruct u;
    try reflexivity; try apply string_of_uint_wire.
  all: cbn [all_chars]; rewrite ?string_of_uint_wire; reflexivity.
Qed.

Lemma int_of_str_str (n : Z) : int_of_str (str n) = Some n.
Proof.
  unfold int_of_str, str.
  rewrite NilZero.isi.
  - cbn. rewrite DecimalZ.of_to. reflexivity.
  - destruct n; cbn; try discriminate.
    intros H. injection H as H. apply (Unsigned.to_uint_nonnil _ H).
  - destruct n; cbn; try discriminate.
    intros H. injection H as H. apply (Unsigned.to_uint_nonnil _ H).
Qed.

Lemma append_assoc (s t u : string) : ((s ++ t) ++ u = s ++ (t ++ u))%string.
Proof.
  induction s as [|c s IH]; cbn; [reflexivity|]. rewrite IH. reflexivity.
Qed.

Lemma all_chars_append (p : ascii -> bool) (s t : string) :
  all_chars p (s ++ t) = all_chars p s && all_chars p t.
Proof.
  induction s as [|c s IH]; cbn; [reflexivity|].
  rewrite IH, andb_assoc. reflexivity.
Qed.

Lemma join_comma_wire (parts : list string) :
  forallb (all_chars wire_char) parts = true ->
  all_chars wire_char (join "," parts) = true.
Proof.
  unfold join. induction parts as [|s parts IH]; cbn [String.concat forallb].
  - reflexivity.
  - intros H. apply andb_true_iff in H. destruct H as [Hs Hp].
    destruct parts as [|s' parts]; [exact Hs|].
    rewrite !all_chars_append, Hs, (IH Hp). reflexivity.
Qed.

(** The command string for any list of numbers has wire characters only. *)
Lemma assemble_serial_output_wire {A : Type} `{Number A} (actuators : list A) :
  all_chars wire_char (assemble_serial_output actuators) = true.
Proof.
  unfold assemble_serial_output.
  change (join "" ["<"; join "," (map (fun l => str (int l)) actuators); ">"])
    with ("<" ++ (join "," (map (fun l => str (int l)) actuators) ++ (">" ++ "")))%string.
  rewrite !all_chars_append.
  rewrite join_comma_wire; [reflexivity|].
  induction actuators as [|a l IH]; cbn [map forallb]; [reflexivity|].
  rewrite str_wire, IH. reflexivity.
Qed.

Lemma wire_char_no_space : wire_char " " = false.
Proof. reflexivity. Qed.

(** The formatter computes on rationals: the sample of the design document. *)
Lemma assemble_serial_output_sample_Q :
  assemble_serial_output [1.7; -2.9; 0.0; 100.4; -0.1; 5.9]%Q = "<1,-2,0,100,0,5>".
Proof. vm_compute. reflexivity. Qed.

Ltac truncation :=
  apply int_is; unfold truncated_toward_zero;
  repeat match goal with
         | |- context [Rabs ?a] =>
             first [ rewrite (Rabs_pos_eq a) by lra
                   | rewrite (Rabs_left a) by lra ]
         end;
  lra.

(** C5: a list of six reals becomes ['<v0,v1,v2,v3,v4,v5>'], each [vi] the
    value truncated toward zero and written in decimal, separated by commas,
    between angle brackets, in wire characters only (so without any
    whitespace); and the sample [1.7, -2.9, 0.0, 100.4, -0.1, 5.9] becomes
    ['<1,-2,0,100,0,5>']. *)
Theorem assemble_serial_output_six (v0 v1 v2 v3 v4 v5 : R) :
  assemble_serial_output [v0; v1; v2; v3; v4; v5]
    = ("<" ++ str (int v0) ++ "," ++ str (int v1) ++ "," ++ str (int v2) ++ ","
           ++ str (int v3) ++ "," ++ str (int v4) ++ "," ++ str (int v5) ++ ">")%string
  /\ Forall (fun v => truncated_toward_zero v (int v)
                      /\ int_of_str (str (int v)) = Some (int v))
            [v0; v1; v2; v3; v4; v5]
  /\ all_chars wire_char (assemble_serial_output [v0; v1; v2; v3; v4; v5]) = true
  /\ wire_char " " = false
  /\ assemble_serial_output [1.7; -2.9; 0.0; 100.4; -0.1; 5.9] = "<1,-2,0,100,0,5>".
Proof.
  split; [|split; [|split; [|split]]].
  - unfold assemble_serial_output, join. cbn [String.concat map].
    cbn [append]. repeat (rewrite append_assoc; cbn [append]). reflexivity.
  - repeat (apply Forall_cons;
              [split; [apply int_truncates | apply int_of_str_str]|]).
    apply Forall_nil.
  - apply assemble_serial_output_wire.
  - reflexivity.
  - unfold assemble_serial_output, join. cbn [map].
    replace (int 1.7) with 1%Z by (symmetry; truncation).
    replace (int (-2.9)) with (-2)%Z by (symmetry; truncation).
    replace (int 0.0) with 0%Z by (symmetry; truncation).
    replace (int 100.4) with 100%Z by (symmetry; truncation).
    replace (int (-0.1)) with 0%Z by (symmetry; truncation).
    replace (int 5.9) with 5%Z by (symmetry; truncation).
    reflexivity.
Qed.

(* ================================================================== *)
(** * The kinematics *)
(* ================================================================== *)

Ltac unfold_solver :=
  unfold actuator_lengths, actuator_length, NUM_ACTUATORS,
    np.norm, np.sub, np.add, np.mul, np.rows_upto, np.T, np.row, np.dot,
    np.sum, np.ncols, transform_matrix, END_EFF_POS, BASE_POS;
  cbn [map seq nth hd List.length firstn np.zip_with fold_right
       List.concat app].

Ltac unfold_spec :=
  unfold Spec.length, Spec.euclidean_norm, Spec.effector_world, Spec.R_entry,
    Spec.effector, Spec.base, Spec.offset, END_EFF_POS, BASE_POS;
  cbn [map nth].

(** The matrix the code builds is the matrix of the design document. *)
Lemma transform_matrix_entries (pitch yaw roll : R) :
  transform_matrix pitch yaw roll =
  map (fun i => map (Spec.R_entry pitch yaw roll i) [0; 1; 2; 3]%nat)
      [0; 1; 2; 3]%nat.
Proof. reflexivity. Qed.

(** One pass of the loop computes the length of the design document. *)
Lemma actuator_length_spec (pos : Vector) (pitch yaw roll : R) (i : nat) :
  (i < 6)%nat ->
  actuator_length pos pitch yaw roll i = Spec.length pos pitch yaw roll i.
Proof.
  intros Hi.
  do 6 (destruct i as [|i]; [unfold_solver; unfold_spec;
                             f_equal; f_equal; ring |]).
  lia.
Qed.

(** C4: for every pose the transform is the matrix R of the design document
    and the solver returns, in actuator order 0..5, the lengths
    [euclidean_norm (first three components of (R . effector[i]^t +
    (x, -z, y + HOME_POSITION_HEIGHT, 0)^t) - base[i]) - MIN_ACTUATOR_LEN]. *)
Theorem actuator_lengths_spec (pos : Vector) (pitch yaw roll : R) :
  transform_matrix pitch yaw roll =
    map (fun i => map (Spec.R_entry pitch yaw roll i) [0; 1; 2; 3]%nat)
        [0; 1; 2; 3]%nat
  /\ actuator_lengths pos pitch yaw roll =
       map (Spec.length pos pitch yaw roll) [0; 1; 2; 3; 4; 5]%nat
  /\ List.length (actuator_lengths pos pitch yaw roll) = 6%nat.
Proof.
  split; [apply transform_matrix_entries|]. split; [|reflexivity].
  unfold actuator_lengths, NUM_ACTUATORS. cbn [seq map].
  rewrite !actuator_length_spec by lia. reflexivity.
Qed.

(** C8: with pitch = yaw = roll = 0 the transform is the 4x4 identity. *)
Theorem transform_matrix_identity :
  transform_matrix 0 0 0 = Spec.identity 4.
Proof.
  unfold transform_matrix, Spec.identity. cbn [map seq Nat.eqb].
  rewrite cos_0, sin_0.
  repeat (f_equal; try ring).
Qed.

(** The transform has period 2 pi in the yaw angle. *)
Lemma transform_matrix_yaw_period (pitch yaw roll : R) :
  transform_matrix pitch (yaw + 2 * PI) roll = transform_matrix pitch yaw roll.
Proof.
  unfold transform_matrix.
  rewrite cos_plus, sin_plus, cos_2PI, sin_2PI.
  repeat (f_equal; try ring).
Qed.

(** C9: turning the yaw angle by 2 pi leaves the six lengths as they are. *)
Theorem actuator_lengths_yaw_period (pos : Vector) (pitch yaw roll : R) :
  actuator_lengths pos pitch (yaw + 2 * PI) roll =
  actuator_lengths pos pitch yaw roll.
Proof.
  unfold actuator_lengths. apply map_ext. intros i.
  unfold actuator_length. rewrite transform_matrix_yaw_period. reflexivity.
Qed.

(** ** A pose worked through: the flat hand 200 above the sensor *)

Lemma sqrt_between (a s : R) :
  0 <= a -> a * a <= s < (a + 1) * (a + 1) -> a <= sqrt s < a + 1.
Proof.
  intros Ha [H1 H2]. split.
  - rewrite <- (sqrt_square a Ha) at 1. apply sqrt_le_1_alt. exact H1.
  - rewrite <- (sqrt_square (a + 1)) by lra.
    apply sqrt_lt_1_alt. split; [nra | exact H2].
Qed.

Lemma int_between (v : R) (n : Z) :
  (0 <= n)%Z -> IZR n <= v < IZR n + 1 -> int v = n.
Proof.
  intros Hn [H1 H2]. apply int_is. unfold truncated_toward_zero.
  apply IZR_le in Hn. rewrite !Rabs_pos_eq by lra.
  repeat split; try lra. apply Rmult_le_pos; lra.
Qed.

(** Each actuator has to extend by a little more than 208. *)
Lemma flat_hand_lengths (i : nat) :
  (i < 6)%nat ->
  208 <= actuator_length (vec 0 200 0) 0 0 0 i < 209.
Proof.
  intros Hi. rewrite actuator_length_spec by exact Hi.
  unfold Spec.length, Spec.euclidean_norm, MIN_ACTUATOR_LEN.
  match goal with
  | |- _ <= sqrt ?s - _ < _ =>
      assert (B : 543 <= sqrt s < 543 + 1)
  end.
  { apply sqrt_between; [lra|].
    do 6 (destruct i as [|i];
          [unfold_spec; unfold HOME_POSITION_HEIGHT; cbn [x y z vec];
           rewrite cos_0, sin_0; lra |]).
    lia. }
  lra.
Qed.

(** The command the script sends for it. *)
Lemma flat_hand_command :
  ser_string_of frame_with_hand = "<208,208,208,208,208,208>".
Proof.
  unfold ser_string_of, lengths_of, frame_with_hand, flat_hand.
  cbn [hands rightmost palm_position direction palm_normal pitch yaw roll vec].
  unfold actuator_lengths, NUM_ACTUATORS, assemble_serial_output, join.
  cbn [seq map].
  rewrite !(int_between _ 208)
    by (try lia;
        match goal with
        | |- _ <= actuator_length _ _ _ _ ?i < _ =>
            pose proof (flat_hand_lengths i ltac:(lia)); lra
        end).
  reflexivity.
Qed.

(* ================================================================== *)
(** * The pacing of the output *)
(* ================================================================== *)

Lemma initial_frame_count (cfg : Config) : frame_count (initial cfg) = 0%Z.
Proof. unfold initial, on_init. destruct (NO_SERIAL cfg); reflexivity. Qed.

Lemma initial_link_up (cfg : Config) :
  NO_SERIAL cfg = false -> link_up (initial cfg) = true.
Proof. intros H. unfold initial, on_init. rewrite H. reflexivity. Qed.

Lemma steady_repeat (frame : Frame) (w : write_result) (n : nat) :
  has_valid_hand frame = true -> w <> LinkFailed ->
  steady (repeat (frame, w) n).
Proof.
  intros Hv Hw. unfold steady. apply Forall_forall. intros fw Hin.
  apply repeat_spec in Hin. subst fw. split; assumption.
Qed.

(** A steady stream never ends the session. *)
Lemma session_steady_total (cfg : Config) (input : list (Frame * write_result)) :
  NO_SERIAL cfg = false ->
  steady input ->
  forall self,
  link_up self = true ->
  session_end cfg self input = Normal tt /\
  List.length (traces cfg self input) = List.length input /\
  link_up (final cfg self input) = true.
Proof.
  intros Hn Hs.
  induction Hs as [|[frame w] rest [Hv Hw] Hrest IH]; intros self Hu.
  - cbn. repeat split. exact Hu.
  - cbn [fst snd] in Hv, Hw.
    destruct (on_frame_valid cfg frame w self Hn Hu Hv Hw) as (He & Ha & _).
    destruct (session_cons_normal cfg frame w rest self He) as (E1 & E2 & E3).
    assert (Hu' : link_up (self_after (on_frame cfg frame w self)) = true)
      by (rewrite Ha; exact Hu).
    destruct (IH _ Hu') as (I1 & I2 & I3).
    rewrite E1, E2, E3. cbn [List.length]. rewrite I2. repeat split; assumption.
Qed.

Lemma transmissions_length (cfg : Config) (input : list (Frame * write_result))
    (self : LeapListener) :
  NO_SERIAL cfg = false -> steady input -> link_up self = true ->
  List.length (transmissions cfg self input) = List.length input.
Proof.
  intros Hn Hs Hu. unfold transmissions. rewrite length_map.
  apply (session_steady_total cfg input Hn Hs self Hu).
Qed.

(** From a counter at 0, the first [FRAME_RATE + 2] frames of a steady
    stream: [FRAME_RATE + 1] silent ones, then the one that transmits. *)
Lemma first_cycle (cfg : Config) (input : list (Frame * write_result))
    (self : LeapListener) :
  NO_SERIAL cfg = false ->
  (0 <= FRAME_RATE cfg)%Z ->
  link_up self = true ->
  frame_count self = 0%Z ->
  steady input ->
  List.length input = Z.to_nat (FRAME_RATE cfg + 2) ->
  transmissions cfg self input =
    (repeat false (Z.to_nat (FRAME_RATE cfg + 1)) ++ [true])%list.
Proof.
  intros Hn HN Hu Hc Hs Hl.
  assert (Hr : (0 <= frame_count self <= FRAME_RATE cfg + 1)%Z) by lia.
  destruct (session_steady cfg input Hn HN Hs self Hu Hr) as (_ & _ & _ & _ & Hk).
  pose proof (transmissions_length cfg input self Hn Hs Hu) as Ht.
  apply (nth_ext _ _ false false).
  - rewrite Ht, Hl, length_app, repeat_length. cbn [List.length]. lia.
  - intros k Hlt. rewrite Ht in Hlt. rewrite (Hk k Hlt), Hc, Z.add_0_l.
    rewrite Z.mod_small by lia.
    destruct (Nat.lt_ge_cases k (Z.to_nat (FRAME_RATE cfg + 1))) as [Lt | Ge].
    + rewrite app_nth1 by (rewrite repeat_length; exact Lt).
      rewrite nth_repeat. apply Z.eqb_neq. lia.
    + rewrite app_nth2 by (rewrite repeat_length; exact Ge).
      rewrite repeat_length.
      replace (k - Z.to_nat (FRAME_RATE cfg + 1))%nat with 0%nat by lia.
      cbn. apply Z.eqb_eq. lia.
Qed.

Lemma count_true_single (l : list bool) :
  forall k0, (k0 < List.length l)%nat ->
  (forall k, (k < List.length l)%nat -> nth k l false = Nat.eqb k k0) ->
  count_true l = 1%nat.
Proof.
  unfold count_true.
  induction l as [|b l IH]; intros k0 H0 Hk; cbn [List.length] in *; [lia|].
  destruct k0 as [|k0].
  - pose proof (Hk 0%nat ltac:(lia)) as Hb. cbn in Hb. subst b.
    cbn [filter List.length]. f_equal.
    assert (F : forall l', (forall k, (k < List.length l')%nat ->
                                      nth k l' false = false) ->
                           filter (fun b : bool => b) l' = []).
    { induction l' as [|b' l' IH']; intros H; [reflexivity|].
      pose proof (H 0%nat ltac:(cbn; lia)) as Hb. cbn in Hb. subst b'.
      cbn. apply IH'. intros k Hlt. apply (H (S k)). cbn. lia. }
    rewrite F; [reflexivity|].
    intros k Hlt. apply (Hk (S k)). lia.
  - pose proof (Hk 0%nat ltac:(lia)) as Hb. cbn in Hb. subst b.
    cbn [filter]. apply (IH k0); [lia|].
    intros k Hlt. apply (Hk (S k)). lia.
Qed.

(** What the pacer does: over a steady stream from the initial listener,
    every window of [FRAME_RATE + 2] consecutive frames holds exactly one
    transmission. *)
Lemma pacer_window (cfg : Config) (input : list (Frame * write_result)) (j : nat) :
  NO_SERIAL cfg = false ->
  (0 <= FRAME_RATE cfg)%Z ->
  steady input ->
  (j + Z.to_nat (FRAME_RATE cfg + 2) <= List.length input)%nat ->
  count_true (window j (Z.to_nat (FRAME_RATE cfg + 2))
                     (transmissions cfg (initial cfg) input)) = 1%nat.
Proof.
  intros Hn HN Hs Hj.
  pose proof (initial_link_up cfg Hn) as Hu.
  pose proof (initial_frame_count cfg) as Hc.
  assert (Hr : (0 <= frame_count (initial cfg) <= FRAME_RATE cfg + 1)%Z) by lia.
  destruct (session_steady cfg input Hn HN Hs _ Hu Hr) as (_ & _ & _ & _ & Hk).
  pose proof (transmissions_length cfg input _ Hn Hs Hu) as Ht.
  set (M := (FRAME_RATE cfg + 2)%Z) in *.
  set (c := (Z.of_nat j mod M)%Z).
  assert (Hcr : (0 <= c < M)%Z) by (apply Z.mod_pos_bound; lia).
  assert (Hw : List.length (window j (Z.to_nat M)
                 (transmissions cfg (initial cfg) input)) = Z.to_nat M).
  { unfold window. rewrite length_firstn, length_skipn, Ht. lia. }
  apply (count_true_single _ (Z.to_nat (M - 1 - c))); [rewrite Hw; lia|].
  intros k Hlt. rewrite Hw in Hlt. unfold window.
  rewrite nth_firstn.
  destruct (Nat.ltb_spec k (Z.to_nat M)) as [_|]; [|lia].
  rewrite nth_skipn, (Hk (j + k)%nat) by lia.
  rewrite Hc, Z.add_0_l, Nat2Z.inj_add.
  rewrite <- Zplus_mod_idemp_l. fold c.
  replace (FRAME_RATE cfg + 1)%Z with (M - 1)%Z by lia.
  destruct (Z_lt_ge_dec (c + Z.of_nat k) M) as [Small | Big].
  - rewrite Z.mod_small by lia.
    destruct (Z.eqb_spec (c + Z.of_nat k) (M - 1));
      destruct (Nat.eqb_spec k (Z.to_nat (M - 1 - c))); try reflexivity; lia.
  - replace (c + Z.of_nat k)%Z with ((c + Z.of_nat k - M) + 1 * M)%Z by lia.
    rewrite Z_mod_plus_full, Z.mod_small by lia.
    destruct (Z.eqb_spec (c + Z.of_nat k - M) (M - 1));
      destruct (Nat.eqb_spec k (Z.to_nat (M - 1 - c))); try reflexivity; lia.
Qed.

(** After [FRAME_RATE + 1] frames with a valid hand the counter stands at
    [FRAME_RATE + 1]. *)
Lemma counter_passes_frame_rate (cfg : Config)
    (input : list (Frame * write_result)) :
  NO_SERIAL cfg = false ->
  (0 <= FRAME_RATE cfg)%Z ->
  steady input ->
  List.length input = Z.to_nat (FRAME_RATE cfg + 1) ->
  frame_count (final cfg (initial cfg) input) = (FRAME_RATE cfg + 1)%Z.
Proof.
  intros Hn HN Hs Hl.
  pose proof (initial_link_up cfg Hn) as Hu.
  pose proof (initial_frame_count cfg) as Hc.
  assert (Hr : (0 <= frame_count (initial cfg) <= FRAME_RATE cfg + 1)%Z) by lia.
  destruct (session_steady cfg input Hn HN Hs _ Hu Hr) as (_ & _ & _ & Hf & _).
  rewrite Hf, Hc, Hl, Z.add_0_l, Z2Nat.id by lia.
  apply Z.mod_small. lia.
Qed.

(* ================================================================== *)
(** * Pacing and recovery, frame by frame *)
(* ================================================================== *)

(** C1: with the script's [FRAME_RATE] of 10 and a stream of frames that all
    hold a valid hand, the first window of 11 frames after [on_init] holds no
    transmission at all: the callbacks of frames 12 and 24 are the ones that
    write, one in every 12 frames, not one in every 11. *)
Theorem first_window_is_silent :
  FRAME_RATE script = 10%Z
  /\ has_valid_hand frame_with_hand = true
  /\ transmissions script (initial script) (valid_frames 24)
       = (repeat false 11 ++ [true] ++ repeat false 11 ++ [true])%list
  /\ count_true (window 0 11 (transmissions script (initial script)
                                             (valid_frames 24))) = 0%nat
  /\ count_true (window 0 12 (transmissions script (initial script)
                                             (valid_frames 24))) = 1%nat.
Proof. repeat split. Qed.

(** C2: with the script's [FRAME_RATE] of 10, after 11 frames with a valid
    hand the counter stands at 11, above [FRAME_RATE]; the range the counter
    keeps to is [0, FRAME_RATE + 1]. *)
Theorem counter_exceeds_frame_rate :
  frame_count (final script (initial script) (valid_frames 11)) = 11%Z
  /\ (frame_count (final script (initial script) (valid_frames 11))
        > FRAME_RATE script)%Z.
Proof. split; reflexivity. Qed.

(** C3, as stated, fails: on the listener after [on_init] a frame without
    hands leaves the counter at 0, where the pacing rule, and a frame with a
    valid hand, take it to 1. *)
Lemma no_hand_frame_keeps_counter :
  has_valid_hand frame_without_hands = false
  /\ (frame_count (initial script) <= FRAME_RATE script)%Z
  /\ frame_count (self_after (on_frame script frame_without_hands Written
                                       (initial script))) = 0%Z
  /\ next_count script (frame_count (initial script)) = 1%Z
  /\ frame_count (self_after (on_frame script frame_with_hand Written
                                       (initial script))) = 1%Z
  /\ frame_count (self_after (on_frame script frame_without_hands Written
                                       (initial script)))
     <> frame_count (self_after (on_frame script frame_with_hand Written
                                          (initial script))).
Proof.
  split; [reflexivity|]. split; [discriminate|].
  split; [reflexivity|]. split; [reflexivity|]. split; [reflexivity|].
  discriminate.
Qed.

(** C3, amended: a frame in which no valid hand is present (no hands, or
    the rightmost hand not valid) produces no output and leaves the frame
    counter, and the whole listener, as it was. *)
Theorem no_valid_hand_is_noop (cfg : Config) (frame : Frame)
    (w : write_result) (self : LeapListener) :
  has_valid_hand frame = false ->
  let r := on_frame cfg frame w self in
  ended r = Normal tt
  /\ trace r = []
  /\ frame_count (self_after r) = frame_count self
  /\ self_after r = self.
Proof.
  intros H. cbv zeta. rewrite (on_frame_no_valid_hand cfg frame w self H).
  repeat split.
Qed.

Lemma no_valid_hand_is_noop_witness :
  has_valid_hand frame_with_invalid_hand = false
  /\ (let r := on_frame script frame_with_invalid_hand Written due in
      ended r = Normal tt
      /\ trace r = []
      /\ frame_count (self_after r) = frame_count due
      /\ self_after r = due).
Proof.
  split; [reflexivity|].
  apply (no_valid_hand_is_noop script frame_with_invalid_hand Written due).
  reflexivity.
Defined.

(** C7: a frame in which no valid hand is present makes no transmission
    attempt and does not run the kinematics (neither the transform matrix nor
    the loop over the actuators). *)
Theorem no_valid_hand_no_work (cfg : Config) (frame : Frame)
    (w : write_result) (self : LeapListener) :
  has_valid_hand frame = false ->
  let r := on_frame cfg frame w self in
  transmits (trace r) = false
  /\ written (trace r) = []
  /\ count_of is_write (trace r) = 0%nat
  /\ count_of is_solved (trace r) = 0%nat.
Proof.
  intros H. cbv zeta. rewrite (on_frame_no_valid_hand cfg frame w self H).
  repeat split.
Qed.

Lemma no_valid_hand_no_work_witness :
  has_valid_hand frame_without_hands = false
  /\ (let r := on_frame script frame_without_hands Written due in
      transmits (trace r) = false
      /\ written (trace r) = []
      /\ count_of is_write (trace r) = 0%nat
      /\ count_of is_solved (trace r) = 0%nat).
Proof.
  split; [reflexivity|].
  apply (no_valid_hand_no_work script frame_without_hands Written due).
  reflexivity.
Defined.

(** C6: when the write of a transmitting frame times out, the callback
    returns normally; it has called [write] once with the frame's command
    (no second attempt), printed the diagnostic, and closed and reopened the
    port once each, in this order; the port is open again, and the session
    goes on to process every frame that follows. *)
Theorem timeout_recovery (cfg : Config) (frame : Frame) (self : LeapListener)
    (rest : list (Frame * write_result)) :
  NO_SERIAL cfg = false ->
  link_up self = true ->
  has_valid_hand frame = true ->
  (frame_count self > FRAME_RATE cfg)%Z ->
  steady rest ->
  let r := on_frame cfg frame TimedOut self in
  ended r = Normal tt
  /\ trace r = [Solved (lengths_of (rightmost (hands frame)));
                Printed (ser_string_of frame);
                SerWrite (ser_string_of frame);
                Printed "Timeout detected!"; Printed "Timeout detected!";
                Printed "Timeout detected!"; Printed "Timeout detected!";
                Printed "Timeout detected!";
                SerClose; SerOpen]
  /\ written (trace r) = [ser_string_of frame]
  /\ count_of is_close (trace r) = 1%nat
  /\ count_of is_open_call (trace r) = 1%nat
  /\ In (Printed "Timeout detected!") (trace r)
  /\ link_up (self_after r) = true
  /\ session_end cfg self ((frame, TimedOut) :: rest) = Normal tt
  /\ traces cfg self ((frame, TimedOut) :: rest)
       = trace r :: traces cfg (self_after r) rest
  /\ List.length (traces cfg self ((frame, TimedOut) :: rest))
       = S (List.length rest).
Proof.
  intros Hn Hu Hv Hc Hs. cbv zeta.
  pose proof (on_frame_timeout cfg frame self Hn Hu Hv Hc) as E.
  assert (He : ended (on_frame cfg frame TimedOut self) = Normal tt)
    by (rewrite E; reflexivity).
  destruct (session_cons_normal cfg frame TimedOut rest self He) as (E1 & E2 & _).
  assert (Hu' : link_up (self_after (on_frame cfg frame TimedOut self)) = true)
    by (rewrite E; exact Hu).
  destruct (session_steady_total cfg rest Hn Hs _ Hu') as (T1 & T2 & _).
  rewrite E1, E2, T1. cbn [List.length]. rewrite T2.
  rewrite E. cbn [ended trace self_after].
  repeat split; try assumption.
  cbn. tauto.
Qed.

Lemma timeout_recovery_witness :
  NO_SERIAL script = false
  /\ link_up due = true
  /\ has_valid_hand frame_with_hand = true
  /\ (frame_count due > FRAME_RATE script)%Z
  /\ steady (valid_frames 3)
  /\ ended (on_frame script frame_with_hand TimedOut due) = Normal tt
  /\ List.length (traces script due ((frame_with_hand, TimedOut) :: valid_frames 3))
       = 4%nat.
Proof.
  assert (Hs : steady (valid_frames 3))
    by (apply steady_repeat; [reflexivity | discriminate]).
  pose proof (timeout_recovery script frame_with_hand due (valid_frames 3)
                eq_refl eq_refl eq_refl eq_refl Hs) as H.
  cbv zeta in H.
  destruct H as (H1 & _ & _ & _ & _ & _ & _ & _ & _ & H10).
  repeat split; try assumption; discriminate.
Defined.

(** C10: a write that times out resets the counter on that same frame, and
    leaves the listener exactly as a successful write does; so after either,
    over a steady stream, the next [FRAME_RATE + 1] frames are silent and the
    one after them makes the next transmission attempt. *)
Theorem timeout_resets_counter (cfg : Config) (frame : Frame)
    (self : LeapListener) (rest : list (Frame * write_result)) :
  NO_SERIAL cfg = false ->
  (0 <= FRAME_RATE cfg)%Z ->
  link_up self = true ->
  has_valid_hand frame = true ->
  (frame_count self > FRAME_RATE cfg)%Z ->
  steady rest ->
  List.length rest = Z.to_nat (FRAME_RATE cfg + 2) ->
  let timed := on_frame cfg frame TimedOut self in
  let sent := on_frame cfg frame Written self in
  frame_count (self_after timed) = 0%Z
  /\ self_after timed = self_after sent
  /\ transmits (trace timed) = true
  /\ transmissions cfg (self_after timed) rest
       = (repeat false (Z.to_nat (FRAME_RATE cfg + 1)) ++ [true])%list
  /\ transmissions cfg (self_after sent) rest
       = (repeat false (Z.to_nat (FRAME_RATE cfg + 1)) ++ [true])%list.
Proof.
  intros Hn HN Hu Hv Hc Hs Hl. cbv zeta.
  rewrite (on_frame_timeout cfg frame self Hn Hu Hv Hc).
  rewrite (on_frame_send cfg frame self Hn Hu Hv Hc).
  cbn [self_after frame_count trace].
  split; [reflexivity|]. split; [reflexivity|]. split; [reflexivity|].
  assert (F : transmissions cfg {| frame_count := 0; ser := ser self |} rest
              = (repeat false (Z.to_nat (FRAME_RATE cfg + 1)) ++ [true])%list)
    by (apply first_cycle; try assumption; reflexivity).
  split; exact F.
Qed.

Lemma timeout_resets_counter_witness :
  NO_SERIAL script = false
  /\ (0 <= FRAME_RATE script)%Z
  /\ link_up due = true
  /\ has_valid_hand frame_with_hand = true
  /\ (frame_count due > FRAME_RATE script)%Z
  /\ steady (valid_frames 12)
  /\ List.length (valid_frames 12) = Z.to_nat (FRAME_RATE script + 2)
  /\ frame_count (self_after (on_frame script frame_with_hand TimedOut due)) = 0%Z
  /\ transmissions script
        (self_after (on_frame script frame_with_hand TimedOut due))
        (valid_frames 12)
      = (repeat false 11 ++ [true])%list.
Proof.
  assert (Hs : steady (valid_frames 12))
    by (apply steady_repeat; [reflexivity | discriminate]).
  assert (HN : (0 <= FRAME_RATE script)%Z) by discriminate.
  pose proof (timeout_resets_counter script frame_with_hand due (valid_frames 12)
                eq_refl HN eq_refl eq_refl eq_refl Hs eq_refl) as H.
  cbv zeta in H.
  destruct H as (H1 & _ & _ & H4 & _).
  repeat split; try assumption; discriminate.
Defined.

(* ================================================================== *)
(** * More on the kinematics *)
(* ================================================================== *)

(** X14: the transform built from the three angles is a rotation: multiplied
    by its transpose it gives the identity, whatever the angles. *)
Theorem transform_matrix_orthogonal (pitch yaw roll : R) :
  np.mul (transform_matrix pitch yaw roll)
         (np.T (transform_matrix pitch yaw roll)) = Spec.identity 4.
Proof.
  pose proof (sin2_cos2 pitch) as Hp.
  pose proof (sin2_cos2 yaw) as Hy.
  pose proof (sin2_cos2 roll) as Hr.
  unfold Rsqr in Hp, Hy, Hr.
  unfold np.mul, np.T, np.dot, np.sum, np.ncols, transform_matrix, Spec.identity.
  cbn [map seq nth hd List.length np.zip_with fold_right Nat.eqb].
  generalize dependent (sin pitch). generalize dependent (cos pitch).
  generalize dependent (sin yaw). generalize dependent (cos yaw).
  generalize dependent (sin roll). generalize dependent (cos roll).
  intros cr sr Hr cy sy Hy cp sp Hp.
  repeat (f_equal; try nsatz).
Qed.

(** X15: the model of the platform is symmetric about the plane x = 0:
    mirroring the pose (x, pitch and yaw change sign) gives each actuator the
    length its mirror image had. *)
Theorem actuator_length_mirror (pos : Vector) (pitch yaw roll : R) (i : nat) :
  (i < 6)%nat ->
  actuator_length (mirror_pos pos) (- pitch) (- yaw) roll (mirror i)
  = actuator_length pos pitch yaw roll i.
Proof.
  intros Hi.
  do 6 (destruct i as [|i];
        [cbn [mirror]; rewrite !actuator_length_spec by lia;
         unfold_spec; cbn [x y z mirror_pos];
         rewrite !cos_neg, !sin_neg; f_equal; f_equal; lra |]).
  lia.
Qed.

Lemma actuator_length_mirror_witness :
  (0 < 6)%nat
  /\ actuator_length (mirror_pos (vec 30 200 10)) (- (0.1)) (- (0.2)) 0.3
                     (mirror 0)
     = actuator_length (vec 30 200 10) 0.1 0.2 0.3 0.
Proof.
  split; [lia|].
  exact (actuator_length_mirror (vec 30 200 10) 0.1 0.2 0.3 0 ltac:(lia)).
Defined.

(** X16: with no rotation (all three angles 0) each length is the plain
    distance between the attachment point of the plate, moved by
    (x, -z, y + HOME_POSITION_HEIGHT), and the anchor on the base, less
    [MIN_ACTUATOR_LEN]. *)
Theorem actuator_length_level (pos : Vector) (i : nat) :
  (i < 6)%nat ->
  actuator_length pos 0 0 0 i
  = sqrt ((Spec.effector i 0 + x pos - Spec.base i 0)
            * (Spec.effector i 0 + x pos - Spec.base i 0)
          + (Spec.effector i 1 - z pos - Spec.base i 1)
            * (Spec.effector i 1 - z pos - Spec.base i 1)
          + (y pos + HOME_POSITION_HEIGHT) * (y pos + HOME_POSITION_HEIGHT))
    - MIN_ACTUATOR_LEN.
Proof.
  intros Hi. rewrite actuator_length_spec by exact Hi.
  do 6 (destruct i as [|i];
        [unfold_spec; rewrite cos_0, sin_0; f_equal; f_equal; lra |]).
  lia.
Qed.

Lemma actuator_length_level_witness :
  (4 < 6)%nat
  /\ actuator_length (vec 0 200 0) 0 0 0 4
     = sqrt ((Spec.effector 4 0 + x (vec 0 200 0) - Spec.base 4 0)
               * (Spec.effector 4 0 + x (vec 0 200 0) - Spec.base 4 0)
             + (Spec.effector 4 1 - z (vec 0 200 0) - Spec.base 4 1)
               * (Spec.effector 4 1 - z (vec 0 200 0) - Spec.base 4 1)
             + (y (vec 0 200 0) + HOME_POSITION_HEIGHT)
               * (y (vec 0 200 0) + HOME_POSITION_HEIGHT))
       - MIN_ACTUATOR_LEN.
Proof.
  split; [lia|].
  exact (actuator_length_level (vec 0 200 0) 4 ltac:(lia)).
Defined.

Lemma transform_matrix_pitch_period (pitch yaw roll : R) :
  transform_matrix (pitch + 2 * PI) yaw roll = transform_matrix pitch yaw roll.
Proof.
  unfold transform_matrix.
  rewrite (cos_plus pitch), (sin_plus pitch), cos_2PI, sin_2PI.
  repeat (f_equal; try ring).
Qed.

Lemma transform_matrix_roll_period (pitch yaw roll : R) :
  transform_matrix pitch yaw (roll + 2 * PI) = transform_matrix pitch yaw roll.
Proof.
  unfold transform_matrix.
  rewrite (cos_plus roll), (sin_plus roll), cos_2PI, sin_2PI.
  repeat (f_equal; try ring).
Qed.

(** X17: a full turn of the pitch angle, or of the roll angle, leaves the
    six lengths as they are. *)
Theorem actuator_lengths_pitch_roll_period (pos : Vector) (pitch yaw roll : R) :
  actuator_lengths pos (pitch + 2 * PI) yaw roll
    = actuator_lengths pos pitch yaw roll
  /\ actuator_lengths pos pitch yaw (roll + 2 * PI)
    = actuator_lengths pos pitch yaw roll.
Proof.
  split; unfold actuator_lengths; apply map_ext; intros i;
    unfold actuator_length;
    rewrite ?transform_matrix_pitch_period, ?transform_matrix_roll_period;
    reflexivity.
Qed.

(** X18: no pose gives a length below [- MIN_ACTUATOR_LEN], so no number in
    a command is below -335; nothing clamps a length at 0. *)
Theorem actuator_lengths_lower_bound (hand : Hand) :
  Forall (fun l => - MIN_ACTUATOR_LEN <= l /\ (-335 <= int l)%Z)
         (lengths_of hand).
Proof.
  unfold lengths_of, actuator_lengths. apply Forall_forall. intros l Hin.
  apply in_map_iff in Hin. destruct Hin as (i & <- & _).
  assert (B : - MIN_ACTUATOR_LEN
              <= actuator_length (palm_position hand) (pitch (direction hand))
                   (yaw (direction hand)) (roll (palm_normal hand)) i).
  { unfold actuator_length, np.norm.
    match goal with |- _ <= sqrt ?s - _ => pose proof (sqrt_pos s) end.
    lra. }
  split; [exact B|].
  destruct (int_truncates
              (actuator_length (palm_position hand) (pitch (direction hand))
                 (yaw (direction hand)) (roll (palm_normal hand)) i))
    as [[T1 T2] T3].
  unfold MIN_ACTUATOR_LEN in B.
  set (v := actuator_length _ _ _ _ _) in *.
  set (n := int v) in *.
  destruct (Z_lt_ge_dec n (-335)) as [Lt | Ge]; [exfalso | lia].
  assert (L : IZR n <= IZR (-336)) by (apply IZR_le; lia).
  unfold Rabs in T1, T2.
  destruct (Rcase_abs (IZR n)), (Rcase_abs v); nra.
Qed.

(* ================================================================== *)
(** * More on the wire format *)
(* ================================================================== *)

Lemma strip_last_append (c : ascii) (s : string) :
  strip_last c (s ++ String c "") = Some s.
Proof.
  induction s as [|a s IH].
  - cbn. rewrite Ascii.eqb_refl. reflexivity.
  - destruct s as [|b s].
    + cbn. rewrite Ascii.eqb_refl. reflexivity.
    + change (strip_last c (String a (String b s) ++ String c ""))
        with (option_map (String a)
                (strip_last c (String b s ++ String c ""))).
      rewrite IH. reflexivity.
Qed.

Lemma split_on_whole (sep : ascii) (p : string) :
  all_chars (fun a => negb (Ascii.eqb a sep)) p = true ->
  split_on sep p = [p].
Proof.
  induction p as [|a p IH]; cbn [all_chars split_on]; [reflexivity|].
  intros H. apply andb_true_iff in H. destruct H as [Ha Hp].
  apply negb_true_iff in Ha. rewrite Ha, (IH Hp). reflexivity.
Qed.

Lemma split_on_append (sep : ascii) (p rest : string) :
  all_chars (fun a => negb (Ascii.eqb a sep)) p = true ->
  split_on sep (p ++ String sep rest) = p :: split_on sep rest.
Proof.
  induction p as [|a p IH]; cbn [all_chars split_on append].
  - intros _. rewrite Ascii.eqb_refl. reflexivity.
  - intros H. apply andb_true_iff in H. destruct H as [Ha Hp].
    apply negb_true_iff in Ha. rewrite Ha, (IH Hp). reflexivity.
Qed.

Lemma split_on_join (sep : ascii) (parts : list string) :
  parts <> [] ->
  forallb (all_chars (fun a => negb (Ascii.eqb a sep))) parts = true ->
  split_on sep (join (String sep "") parts) = parts.
Proof.
  unfold join. induction parts as [|p parts IH]; [congruence|].
  intros _ H. cbn [forallb] in H. apply andb_true_iff in H.
  destruct H as [Hp Hr].
  destruct parts as [|q parts].
  - cbn [String.concat]. apply split_on_whole. exact Hp.
  - change (String.concat (String sep "") (p :: q :: parts))
      with (p ++ String sep (String.concat (String sep "") (q :: parts)))%string.
    rewrite (split_on_append sep p _ Hp), IH; [reflexivity | discriminate | exact Hr].
Qed.

Lemma string_of_uint_no_comma (u : Decimal.uint) :
  all_chars (fun a => negb (Ascii.eqb a ",")) (NilEmpty.string_of_uint u) = true.
Proof.
  induction u; cbn [NilEmpty.string_of_uint all_chars]; try reflexivity;
    rewrite IHu; reflexivity.
Qed.

Lemma str_no_comma (n : Z) :
  all_chars (fun a => negb (Ascii.eqb a ",")) (str n) = true.
Proof.
  unfold str, NilZero.string_of_int, NilZero.string_of_uint.
  destruct (Z.to_int n) as [u | u]; destruct u;
    try reflexivity; try apply string_of_uint_no_comma.
  all: cbn [all_chars]; rewrite ?string_of_uint_no_comma; reflexivity.
Qed.

Lemma all_some_strs (zs : list Z) :
  all_some (map int_of_str (map str zs)) = Some zs.
Proof.
  induction zs as [|n zs IH]; cbn [map all_some]; [reflexivity|].
  rewrite int_of_str_str, IH. reflexivity.
Qed.

(** A command of at least one number reads back as the truncated numbers. *)
Lemma read_command_assemble {A : Type} `{Number A} (actuators : list A) :
  actuators <> [] ->
  read_command (assemble_serial_output actuators) = Some (map int actuators).
Proof.
  intros Hne. unfold assemble_serial_output.
  change (join "" ["<"; join "," (map (fun l => str (int l)) actuators); ">"])
    with (String "<" (join "," (map (fun l => str (int l)) actuators)
                        ++ String ">" ""))%string.
  cbn [read_command]. rewrite strip_last_append.
  rewrite <- (map_map int str).
  rewrite split_on_join.
  - apply all_some_strs.
  - destruct actuators; [congruence | discriminate].
  - clear Hne. induction actuators as [|a l IH]; cbn [map forallb]; [reflexivity|].
    rewrite str_no_comma, IH. reflexivity.
Qed.

Lemma read_command_empty : read_command "<>" = None.
Proof. reflexivity. Qed.

Lemma int_whole (n : Z) : int (IZR n) = n.
Proof.
  apply int_is. unfold truncated_toward_zero.
  repeat split; try lra. apply Rle_0_sqr.
Qed.

(** X11: two lists of numbers give the same command only if they agree
    number by number after truncation; in particular only if they are
    equally long. *)
Theorem assemble_serial_output_injective {A : Type} `{Number A}
    (l l' : list A) :
  assemble_serial_output l = assemble_serial_output l' ->
  map int l = map int l'.
Proof.
  intros E.
  destruct l as [|a l], l' as [|a' l'].
  - reflexivity.
  - pose proof (read_command_assemble (a' :: l') ltac:(discriminate)) as R'.
    rewrite <- E in R'. discriminate R'.
  - pose proof (read_command_assemble (a :: l) ltac:(discriminate)) as R'.
    rewrite E in R'. discriminate R'.
  - pose proof (read_command_assemble (a :: l) ltac:(discriminate)) as R1.
    pose proof (read_command_assemble (a' :: l') ltac:(discriminate)) as R2.
    rewrite E in R1. rewrite R1 in R2. congruence.
Qed.

Lemma assemble_serial_output_injective_witness :
  assemble_serial_output [1.7; -2.9]%Q = assemble_serial_output [1.2; -2.1]%Q
  /\ map int [1.7; -2.9]%Q = map int [1.2; -2.1]%Q.
Proof.
  split; [reflexivity|].
  exact (assemble_serial_output_injective [1.7; -2.9]%Q [1.2; -2.1]%Q eq_refl).
Defined.

(** X12: a command of at least one number can be read back: between the
    brackets, split at the commas, the decimal integers are the truncated
    numbers, in order; whole numbers come back exactly.  (The command of the
    empty list, ['<>'], does not read back as a list of integers.) *)
Theorem command_round_trip {A : Type} `{Number A} (actuators : list A)
    (zs : list Z) :
  actuators <> [] ->
  zs <> [] ->
  read_command (assemble_serial_output actuators) = Some (map int actuators)
  /\ read_command (assemble_serial_output (map IZR zs)) = Some zs
  /\ assemble_serial_output (@nil A) = "<>"
  /\ read_command "<>" = None.
Proof.
  intros Ha Hz. split; [apply read_command_assemble; exact Ha|].
  split; [|split; reflexivity].
  rewrite read_command_assemble by (destruct zs; [congruence | discriminate]).
  rewrite map_map. f_equal.
  rewrite <- (map_id zs) at 2. apply map_ext. intros n. apply int_whole.
Qed.

Lemma command_round_trip_witness :
  [1.7; -2.9; 0.0; 100.4; -0.1; 5.9]%Q <> []
  /\ [208; -3; 0]%Z <> []
  /\ read_command (assemble_serial_output [1.7; -2.9; 0.0; 100.4; -0.1; 5.9]%Q)
     = Some [1; -2; 0; 100; 0; 5]%Z
  /\ read_command (assemble_serial_output (map IZR [208; -3; 0]%Z))
     = Some [208; -3; 0]%Z.
Proof.
  pose proof (command_round_trip [1.7; -2.9; 0.0; 100.4; -0.1; 5.9]%Q
                [208; -3; 0]%Z ltac:(discriminate) ltac:(discriminate))
    as (H1 & H2 & _).
  repeat split; try discriminate; assumption.
Defined.

Lemma int_Q2R (q : Q) : int (Q2R q) = int q.
Proof.
  apply int_is. unfold truncated_toward_zero, int, Number_Q, Q2R.
  destruct q as [a b]. cbn [Qnum Qden].
  pose proof (Z.quot_rem' a (Zpos b)) as E.
  set (t := Z.quot a (Zpos b)) in *. set (r := Z.rem a (Zpos b)) in *.
  assert (Hb : 0 < IZR (Zpos b)) by (apply IZR_lt; lia).
  assert (ER : IZR a = IZR (Zpos b) * IZR t + IZR r)
    by (rewrite <- mult_IZR, <- plus_IZR; f_equal; exact E).
  set (B := IZR (Zpos b)) in *.
  assert (X : IZR a * / B = IZR t + IZR r * / B) by (rewrite ER; field; lra).
  rewrite X.
  destruct (Z_le_gt_dec 0 a) as [Pos | Neg].
  - pose proof (Z.rem_bound_pos a (Zpos b) Pos ltac:(lia)) as [R1 R2].
    pose proof (Z.quot_pos a (Zpos b) Pos ltac:(lia)) as T.
    fold r in R1, R2. fold t in T.
    apply IZR_le in R1, T. apply IZR_lt in R2. fold B in R2.
    assert (D1 : 0 <= IZR r * / B)
      by (apply Rmult_le_pos; [lra | left; apply Rinv_0_lt_compat; lra]).
    assert (D2 : IZR r * / B < 1).
    { apply (Rmult_lt_reg_r B); [lra|]. rewrite Rmult_assoc, Rinv_l by lra. lra. }
    rewrite !Rabs_pos_eq by lra. repeat split; try lra. nra.
  - assert (Neg' : (- a >= 0)%Z) by lia.
    pose proof (Z.rem_bound_pos (- a) (Zpos b) ltac:(lia) ltac:(lia)) as [R1 R2].
    rewrite Z.rem_opp_l in R1, R2 by lia. fold r in R1, R2.
    pose proof (Z.quot_pos (- a) (Zpos b) ltac:(lia) ltac:(lia)) as T.
    rewrite Z.quot_opp_l in T by lia. fold t in T.
    assert (R1' : IZR r <= 0) by (apply (IZR_le r 0); lia).
    assert (R2' : - B < IZR r)
      by (unfold B; rewrite <- opp_IZR; apply IZR_lt; lia).
    assert (T' : IZR t <= 0) by (apply (IZR_le t 0); lia).
    assert (D1 : IZR r * / B <= 0).
    { apply (Rmult_le_reg_r B); [lra|]. rewrite Rmult_assoc, Rinv_l by lra. lra. }
    assert (D2 : -1 < IZR r * / B).
    { apply (Rmult_lt_reg_r B); [lra|]. rewrite Rmult_assoc, Rinv_l by lra. lra. }
    rewrite <- (Rabs_Ropp (IZR t)), <- (Rabs_Ropp (IZR t + _)).
    rewrite !Rabs_pos_eq by lra. repeat split; try lra. nra.
Qed.

(** X13: on rational numbers the command can be computed: the formatter on
    a list of rationals gives the command it gives on their real values. *)
Theorem assemble_serial_output_rational (actuators : list Q) :
  assemble_serial_output (map Q2R actuators) = assemble_serial_output actuators.
Proof.
  unfold assemble_serial_output. rewrite map_map.
  rewrite (map_ext (fun x => str (int (Q2R x))) (fun l : Q => str (int l)));
    [reflexivity|].
  intros q. rewrite int_Q2R. reflexivity.
Qed.

(* ================================================================== *)
(** * More on the listener *)
(* ================================================================== *)

Lemma bind_run {A B : Type} (m : M A) (k : A -> M B) (self : LeapListener) :
  bind m k self =
    match ended (m self) with
    | Normal a =>
        {| ended := ended (k a (self_after (m self)));
           self_after := self_after (k a (self_after (m self)));
           trace := trace (m self) ++ trace (k a (self_after (m self))) |}
    | Raised e =>
        {| ended := Raised e; self_after := self_after (m self);
           trace := trace (m self) |}
    end.
Proof.
  unfold bind. destruct (m self) as [[a | e] s t]; cbn [ended self_after trace];
    [|reflexivity].
  destruct (k a s) as [o s' t']. reflexivity.
Qed.

Lemma count_of_app (p : event -> bool) (t t' : list event) :
  count_of p (t ++ t') = (count_of p t + count_of p t')%nat.
Proof. unfold count_of. rewrite filter_app, length_app. reflexivity. Qed.

(** In debug mode a frame that is due prints the command and resets the
    counter, without a look at the port. *)
Lemma on_frame_debug_send (cfg : Config) (frame : Frame) (w : write_result)
    (self : LeapListener) :
  NO_SERIAL cfg = true ->
  has_valid_hand frame = true ->
  (frame_count self > FRAME_RATE cfg)%Z ->
  on_frame cfg frame w self =
    {| ended := Normal tt;
       self_after := {| frame_count := 0; ser := ser self |};
       trace := [Solved (lengths_of (rightmost (hands frame)));
                 Printed (ser_string_of frame)] |}.
Proof.
  intros Hn Hv Hc. apply has_valid_hand_true in Hv. destruct Hv as [Hl Hh].
  destruct self as [c s]. cbn [frame_count] in Hc.
  assert (G : (c >? FRAME_RATE cfg)%Z = true)
    by (rewrite Z.gtb_ltb; apply Z.ltb_lt; lia).
  unfold on_frame. rewrite Hl, Hh, Hn. run_listener. rewrite G. step.
  reflexivity.
Qed.

(** X3: frames without a valid hand are invisible to a session: with them
    removed from the stream, the session has the same effects in the same
    order, ends the same way and leaves the same listener; so they neither
    count toward the pacing nor delay an exception. *)
Theorem frames_without_hand_are_skipped (cfg : Config)
    (input : list (Frame * write_result)) (self : LeapListener) :
  List.concat (traces cfg self input)
    = List.concat
        (traces cfg self (filter (fun fw => has_valid_hand (fst fw)) input))
  /\ session_end cfg self input
     = session_end cfg self (filter (fun fw => has_valid_hand (fst fw)) input)
  /\ final cfg self input
     = final cfg self (filter (fun fw => has_valid_hand (fst fw)) input).
Proof.
  unfold traces, session_end, final. revert self.
  induction input as [|[frame w] rest IH]; intros self; [repeat split|].
  cbn [filter fst]. destruct (has_valid_hand frame) eqn:Hv.
  - rewrite !session_cons. cbv zeta.
    destruct (ended (on_frame cfg frame w self)); cbn [fst snd List.concat];
      [|repeat split].
    destruct (IH (self_after (on_frame cfg frame w self))) as (I1 & I2 & I3).
    rewrite I1, I2, I3. repeat split.
  - rewrite session_cons. cbv zeta.
    rewrite (on_frame_no_valid_hand cfg frame w self Hv).
    cbn [ret ended self_after trace fst snd List.concat app]. apply IH.
Qed.

(** X6: whatever the configuration, the listener and the device, one call
    of [on_frame] writes at most once; and when it writes, the frame has a
    valid hand, the counter had passed [FRAME_RATE], and what it writes is
    the command of this very frame, which it has also printed. *)
Theorem one_write_per_frame (cfg : Config) (frame : Frame) (w : write_result)
    (self : LeapListener) :
  let r := on_frame cfg frame w self in
  written (trace r) = []
  \/ (written (trace r) = [ser_string_of frame]
      /\ count_of is_write (trace r) = 1%nat
      /\ In (Printed (ser_string_of frame)) (trace r)
      /\ has_valid_hand frame = true
      /\ (frame_count self > FRAME_RATE cfg)%Z
      /\ NO_SERIAL cfg = false).
Proof.
  cbv zeta.
  destruct (has_valid_hand frame) eqn:Hv;
    [|left; rewrite (on_frame_no_valid_hand cfg frame w self Hv); reflexivity].
  destruct (Z_le_gt_dec (frame_count self) (FRAME_RATE cfg)) as [Hc | Hc];
    [left; rewrite (on_frame_skip cfg frame w self Hv Hc); reflexivity|].
  destruct (NO_SERIAL cfg) eqn:Hn;
    [left; rewrite (on_frame_debug_send cfg frame w self Hn Hv Hc); reflexivity|].
  destruct (link_up self) eqn:Hu.
  - right. destruct w.
    + rewrite (on_frame_send cfg frame self Hn Hu Hv Hc).
      cbn. repeat split; try assumption; tauto.
    + rewrite (on_frame_timeout cfg frame self Hn Hu Hv Hc).
      cbn. repeat split; try assumption; tauto.
    + rewrite (on_frame_link_failed cfg frame self Hn Hu Hv Hc).
      cbn. repeat split; try assumption; tauto.
  - left. apply has_valid_hand_true in Hv. destruct Hv as [Hl Hh].
    destruct self as [c s]. cbn [frame_count] in Hc.
    assert (G : (c >? FRAME_RATE cfg)%Z = true)
      by (rewrite Z.gtb_ltb; apply Z.ltb_lt; lia).
    unfold on_frame. rewrite Hl, Hh, Hn. run_listener. rewrite G. step.
    destruct s as [[p b t o]|]; cbn in Hu; [subst o|]; reflexivity.
Qed.

(** With the port open, any frame and any answer of the device: what one
    callback leaves behind. *)
Lemma on_frame_serial (cfg : Config) (frame : Frame) (w : write_result)
    (self : LeapListener) :
  NO_SERIAL cfg = false ->
  link_up self = true ->
  let r := on_frame cfg frame w self in
  ser (self_after r) = ser self
  /\ count_of is_open_call (trace r) = count_of is_close (trace r)
  /\ (ended r = Normal tt
      \/ (ended r = Raised SerialException /\ w = LinkFailed
          /\ self_after r = self
          /\ has_valid_hand frame = true
          /\ (frame_count self > FRAME_RATE cfg)%Z)).
Proof.
  intros Hn Hu. cbv zeta.
  destruct (has_valid_hand frame) eqn:Hv;
    [|rewrite (on_frame_no_valid_hand cfg frame w self Hv);
      repeat split; left; reflexivity].
  destruct (Z_le_gt_dec (frame_count self) (FRAME_RATE cfg)) as [Hc | Hc];
    [rewrite (on_frame_skip cfg frame w self Hv Hc);
     repeat split; left; reflexivity|].
  destruct w.
  - rewrite (on_frame_send cfg frame self Hn Hu Hv Hc).
    repeat split. left; reflexivity.
  - rewrite (on_frame_timeout cfg frame self Hn Hu Hv Hc).
    repeat split. left; reflexivity.
  - rewrite (on_frame_link_failed cfg frame self Hn Hu Hv Hc).
    repeat split. right. repeat split; assumption.
Qed.

(** X8: with the port open, [on_frame] leaves the same port open behind it,
    whatever the frame and whatever the device answers; and the only way it
    ends in an exception is a [SerialException] from a write that failed
    other than by timing out, which leaves the listener untouched. *)
Theorem callback_keeps_port (cfg : Config) (frame : Frame) (w : write_result)
    (self : LeapListener) :
  NO_SERIAL cfg = false ->
  link_up self = true ->
  let r := on_frame cfg frame w self in
  ser (self_after r) = ser self
  /\ link_up (self_after r) = true
  /\ (ended r = Normal tt
      \/ (ended r = Raised SerialException /\ w = LinkFailed
          /\ self_after r = self)).
Proof.
  intros Hn Hu. cbv zeta.
  destruct (on_frame_serial cfg frame w self Hn Hu) as (Hs & _ & He).
  split; [exact Hs|]. split.
  - unfold link_up in *. rewrite Hs. exact Hu.
  - destruct He as [He | (He & Hw & Ha & _)]; [left; exact He|].
    right. repeat split; assumption.
Qed.

Lemma callback_keeps_port_witness :
  NO_SERIAL script = false
  /\ link_up due = true
  /\ ser (self_after (on_frame script frame_with_hand LinkFailed due)) = ser due
  /\ link_up (self_after (on_frame script frame_with_hand TimedOut due)) = true.
Proof.
  pose proof (callback_keeps_port script frame_with_hand LinkFailed due
                eq_refl eq_refl) as (H1 & _).
  pose proof (callback_keeps_port script frame_with_hand TimedOut due
                eq_refl eq_refl) as (_ & H2 & _).
  repeat split; assumption.
Defined.

(** X5: a write that fails other than by timing out ends the session on
    the spot: the command was printed and the write attempted, the exception
    leaves the callback, the counter is not reset, the port is not reopened,
    and no later frame is processed. *)
Theorem link_failure_ends_session (cfg : Config) (frame : Frame)
    (self : LeapListener) (rest : list (Frame * write_result)) :
  NO_SERIAL cfg = false ->
  link_up self = true ->
  has_valid_hand frame = true ->
  (frame_count self > FRAME_RATE cfg)%Z ->
  session cfg self ((frame, LinkFailed) :: rest)
  = ([[Solved (lengths_of (rightmost (hands frame)));
       Printed (ser_string_of frame);
       SerWrite (ser_string_of frame)]],
     Raised SerialException,
     self).
Proof.
  intros Hn Hu Hv Hc. rewrite session_cons. cbv zeta.
  rewrite (on_frame_link_failed cfg frame self Hn Hu Hv Hc). reflexivity.
Qed.

Lemma link_failure_ends_session_witness :
  NO_SERIAL script = false
  /\ link_up due = true
  /\ has_valid_hand frame_with_hand = true
  /\ (frame_count due > FRAME_RATE script)%Z
  /\ session script due ((frame_with_hand, LinkFailed) :: valid_frames 5)
     = ([[Solved (lengths_of (rightmost (hands frame_with_hand)));
          Printed (ser_string_of frame_with_hand);
          SerWrite (ser_string_of frame_with_hand)]],
        Raised SerialException,
        due).
Proof.
  split; [reflexivity|]. split; [reflexivity|].
  split; [reflexivity|]. split; [reflexivity|].
  exact (link_failure_ends_session script frame_with_hand due (valid_frames 5)
           eq_refl eq_refl eq_refl eq_refl).
Defined.

(** X2: from [on_init] on, whatever frames arrive and whatever the device
    answers, in either mode, the frame counter stays between 0 and
    [FRAME_RATE + 1]. *)
Theorem frame_count_stays_in_range (cfg : Config)
    (input : list (Frame * write_result)) :
  (0 <= FRAME_RATE cfg)%Z ->
  (0 <= frame_count (final cfg (initial cfg) input) <= FRAME_RATE cfg + 1)%Z.
Proof.
  intros HN. apply session_count_range; [exact HN|].
  rewrite initial_frame_count. lia.
Qed.

Lemma frame_count_stays_in_range_witness :
  (0 <= FRAME_RATE script)%Z
  /\ (0 <= frame_count
            (final script (initial script)
               (valid_frames 11
                ++ [(frame_without_hands, Written); (frame_with_hand, TimedOut);
                    (frame_with_hand, LinkFailed)]))
        <= FRAME_RATE script + 1)%Z.
Proof.
  assert (HN : (0 <= FRAME_RATE script)%Z) by discriminate.
  split; [exact HN|].
  exact (frame_count_stays_in_range script
           (valid_frames 11
            ++ [(frame_without_hands, Written); (frame_with_hand, TimedOut);
                (frame_with_hand, LinkFailed)]) HN).
Defined.

(** X1: over a stream of frames with a valid hand, from [on_init] on, the
    frames that transmit are exactly those whose number (counting from 1) is
    a multiple of [FRAME_RATE + 2]. *)
Theorem transmission_schedule (cfg : Config)
    (input : list (Frame * write_result)) (k : nat) :
  NO_SERIAL cfg = false ->
  (0 <= FRAME_RATE cfg)%Z ->
  steady input ->
  (k < List.length input)%nat ->
  nth k (transmissions cfg (initial cfg) input) false
  = ((Z.of_nat k + 1) mod (FRAME_RATE cfg + 2) =? 0)%Z.
Proof.
  intros Hn HN Hs Hk.
  pose proof (initial_link_up cfg Hn) as Hu.
  pose proof (initial_frame_count cfg) as Hc.
  assert (Hr : (0 <= frame_count (initial cfg) <= FRAME_RATE cfg + 1)%Z) by lia.
  destruct (session_steady cfg input Hn HN Hs _ Hu Hr) as (_ & _ & _ & _ & Hnth).
  rewrite (Hnth k Hk), Hc, Z.add_0_l.
  set (M := (FRAME_RATE cfg + 2)%Z).
  replace (FRAME_RATE cfg + 1)%Z with (M - 1)%Z by (unfold M; lia).
  assert (HM : (0 < M)%Z) by (unfold M; lia).
  pose proof (Z.mod_pos_bound (Z.of_nat k) M HM) as Hb.
  rewrite <- (Zplus_mod_idemp_l (Z.of_nat k) 1 M).
  destruct (Z.eqb_spec (Z.of_nat k mod M) (M - 1)) as [E | NE].
  - rewrite E. replace (M - 1 + 1)%Z with (1 * M)%Z by lia.
    rewrite Z.mod_mul by lia. reflexivity.
  - rewrite Z.mod_small by lia. symmetry. apply Z.eqb_neq. lia.
Qed.

Lemma transmission_schedule_witness :
  NO_SERIAL script = false
  /\ (0 <= FRAME_RATE script)%Z
  /\ steady (valid_frames 24)
  /\ (11 < List.length (valid_frames 24))%nat
  /\ nth 11 (transmissions script (initial script) (valid_frames 24)) false
     = ((Z.of_nat 11 + 1) mod (FRAME_RATE script + 2) =? 0)%Z.
Proof.
  assert (Hs : steady (valid_frames 24))
    by (apply steady_repeat; [reflexivity | discriminate]).
  assert (HN : (0 <= FRAME_RATE script)%Z) by discriminate.
  assert (Hk : (11 < List.length (valid_frames 24))%nat) by (cbn; lia).
  split; [reflexivity|]. split; [exact HN|]. split; [exact Hs|].
  split; [exact Hk|].
  exact (transmission_schedule script (valid_frames 24) 11 eq_refl HN Hs Hk).
Defined.

(** X10: a negative [FRAME_RATE] paces nothing: every frame with a valid
    hand transmits and the counter stays at 0.  (With [FRAME_RATE] 0 the
    script still sends only every second frame.) *)
Theorem negative_frame_rate_sends_every_frame (cfg : Config)
    (input : list (Frame * write_result)) :
  NO_SERIAL cfg = false ->
  (FRAME_RATE cfg < 0)%Z ->
  steady input ->
  transmissions cfg (initial cfg) input = repeat true (List.length input)
  /\ frame_count (final cfg (initial cfg) input) = 0%Z.
Proof.
  intros Hn HN Hs.
  pose proof (initial_link_up cfg Hn) as Hu.
  pose proof (initial_frame_count cfg) as Hc.
  revert Hu Hc. generalize (initial cfg). unfold transmissions.
  induction Hs as [|[frame w] rest [Hv Hw] Hrest IH]; intros self Hu Hc.
  - split; [reflexivity | exact Hc].
  - cbn [fst snd] in Hv, Hw.
    destruct (on_frame_valid cfg frame w self Hn Hu Hv Hw) as (He & Ha & Ht).
    destruct (session_cons_normal cfg frame w rest self He) as (E1 & _ & E3).
    assert (G : (frame_count self >? FRAME_RATE cfg)%Z = true)
      by (rewrite Z.gtb_ltb; apply Z.ltb_lt; lia).
    unfold next_count in Ha. rewrite G in Ha, Ht.
    assert (Hu' : link_up (self_after (on_frame cfg frame w self)) = true)
      by (rewrite Ha; exact Hu).
    assert (Hc' : frame_count (self_after (on_frame cfg frame w self)) = 0%Z)
      by (rewrite Ha; reflexivity).
    destruct (IH _ Hu' Hc') as (I1 & I2).
    rewrite E1, E3. cbn [map List.length repeat]. rewrite Ht, I1.
    split; [reflexivity | exact I2].
Qed.

Lemma negative_frame_rate_sends_every_frame_witness :
  NO_SERIAL {| NO_SERIAL := false; FRAME_RATE := -1 |} = false
  /\ (FRAME_RATE {| NO_SERIAL := false; FRAME_RATE := -1 |} < 0)%Z
  /\ steady (valid_frames 4)
  /\ transmissions {| NO_SERIAL := false; FRAME_RATE := -1 |}
       (initial {| NO_SERIAL := false; FRAME_RATE := -1 |}) (valid_frames 4)
     = repeat true (List.length (valid_frames 4)).
Proof.
  assert (Hs : steady (valid_frames 4))
    by (apply steady_repeat; [reflexivity | discriminate]).
  pose proof (negative_frame_rate_sends_every_frame
                {| NO_SERIAL := false; FRAME_RATE := -1 |} (valid_frames 4)
                eq_refl eq_refl Hs) as (H1 & _).
  repeat split; assumption.
Defined.

(** X4: timeouts do not disturb the pacing: as long as no write fails
    other than by timing out, the session runs to its end, and the frames
    that transmit and the listener it leaves are those of the same stream
    with every write taken by the device. *)
Theorem timeouts_keep_the_schedule (cfg : Config)
    (input : list (Frame * write_result)) (self : LeapListener) :
  NO_SERIAL cfg = false ->
  link_up self = true ->
  Forall (fun fw => snd fw <> LinkFailed) input ->
  session_end cfg self input = Normal tt
  /\ transmissions cfg self input = transmissions cfg self (all_written input)
  /\ final cfg self input = final cfg self (all_written input).
Proof.
  intros Hn Hu Hs. revert self Hu. unfold transmissions.
  induction Hs as [|[frame w] rest Hw Hrest IH]; intros self Hu;
    [repeat split|].
  cbn [snd] in Hw. cbn [all_written map fst].
  fold (all_written rest).
  assert (S : on_frame cfg frame w self
              = {| ended := Normal tt;
                   self_after := self_after (on_frame cfg frame Written self);
                   trace := trace (on_frame cfg frame w self) |}
              /\ ended (on_frame cfg frame Written self) = Normal tt
              /\ transmits (trace (on_frame cfg frame w self))
                 = transmits (trace (on_frame cfg frame Written self))
              /\ link_up (self_after (on_frame cfg frame Written self)) = true).
  { destruct (has_valid_hand frame) eqn:Hv.
    - destruct (on_frame_valid cfg frame w self Hn Hu Hv Hw) as (E1 & A1 & T1).
      destruct (on_frame_valid cfg frame Written self Hn Hu Hv ltac:(discriminate))
        as (E2 & A2 & T2).
      rewrite A2, T1, T2. repeat split; try assumption.
      destruct (on_frame cfg frame w self) as [o s t].
      cbn [ended self_after trace] in *. subst. reflexivity.
    - rewrite !(on_frame_no_valid_hand cfg frame _ self Hv).
      repeat split. exact Hu. }
  destruct S as (S1 & S2 & S3 & S4).
  assert (E : ended (on_frame cfg frame w self) = Normal tt)
    by (rewrite S1; reflexivity).
  assert (A : self_after (on_frame cfg frame w self)
              = self_after (on_frame cfg frame Written self))
    by (rewrite S1; reflexivity).
  destruct (session_cons_normal cfg frame w rest self E) as (E1 & E2 & E3).
  destruct (session_cons_normal cfg frame Written (all_written rest) self S2)
    as (F1 & _ & F3).
  destruct (IH _ S4) as (I1 & I2 & I3).
  rewrite E1, E2, E3, F1, F3, A. cbn [map]. rewrite S3, I2, I3.
  repeat split. exact I1.
Qed.

Lemma timeouts_keep_the_schedule_witness :
  NO_SERIAL script = false
  /\ link_up due = true
  /\ Forall (fun fw => snd fw <> LinkFailed)
            [(frame_with_hand, TimedOut); (frame_without_hands, TimedOut);
             (frame_with_hand, Written)]
  /\ transmissions script due
       [(frame_with_hand, TimedOut); (frame_without_hands, TimedOut);
        (frame_with_hand, Written)]
     = transmissions script due
         (all_written
            [(frame_with_hand, TimedOut); (frame_without_hands, TimedOut);
             (frame_with_hand, Written)]).
Proof.
  assert (Hf : Forall (fun fw : Frame * write_result => snd fw <> LinkFailed)
                 [(frame_with_hand, TimedOut); (frame_without_hands, TimedOut);
                  (frame_with_hand, Written)])
    by (repeat constructor; discriminate).
  pose proof (timeouts_keep_the_schedule script _ due eq_refl eq_refl Hf)
    as (_ & H2 & _).
  repeat split; assumption.
Defined.

(* ================================================================== *)
(** * Debug mode and the life of the listener *)
(* ================================================================== *)

(** X7: with [NO_SERIAL] set, [on_frame] never fails, makes no call on the
    serial port (no write, no close, no open), leaves the [ser] attribute
    alone, even when there is none, and does the same whatever the device
    would answer. *)
Theorem debug_mode_no_device (cfg : Config) (frame : Frame)
    (w w' : write_result) (self : LeapListener) :
  NO_SERIAL cfg = true ->
  let r := on_frame cfg frame w self in
  ended r = Normal tt
  /\ ser (self_after r) = ser self
  /\ count_of is_write (trace r) = 0%nat
  /\ count_of is_close (trace r) = 0%nat
  /\ count_of is_open_call (trace r) = 0%nat
  /\ on_frame cfg frame w' self = r.
Proof.
  intros Hn. cbv zeta.
  destruct (has_valid_hand frame) eqn:Hv;
    [|rewrite !(on_frame_no_valid_hand cfg frame _ self Hv); repeat split].
  destruct (Z_le_gt_dec (frame_count self) (FRAME_RATE cfg)) as [Hc | Hc].
  - rewrite !(on_frame_skip cfg frame _ self Hv Hc). repeat split.
  - rewrite !(on_frame_debug_send cfg frame _ self Hn Hv Hc). repeat split.
Qed.

Lemma debug_mode_no_device_witness :
  NO_SERIAL {| NO_SERIAL := true; FRAME_RATE := 10 |} = true
  /\ ended (on_frame {| NO_SERIAL := true; FRAME_RATE := 10 |} frame_with_hand
              LinkFailed {| frame_count := 11; ser := None |}) = Normal tt
  /\ count_of is_write
       (trace (on_frame {| NO_SERIAL := true; FRAME_RATE := 10 |} frame_with_hand
                 LinkFailed {| frame_count := 11; ser := None |})) = 0%nat.
Proof.
  pose proof (debug_mode_no_device {| NO_SERIAL := true; FRAME_RATE := 10 |}
                frame_with_hand LinkFailed Written
                {| frame_count := 11; ser := None |} eq_refl)
    as (H1 & _ & H3 & _).
  repeat split; assumption.
Defined.

(** X19: debug mode shows on the console exactly what serial mode does
    when every write succeeds: for the same [FRAME_RATE], frame and listener,
    the effects of [on_frame] are those of serial mode without the write,
    and the listener afterwards is the same. *)
Theorem debug_mode_mirrors_serial_mode (rate : Z) (frame : Frame)
    (self : LeapListener) :
  link_up self = true ->
  let d := on_frame {| NO_SERIAL := true; FRAME_RATE := rate |}
             frame Written self in
  let s := on_frame {| NO_SERIAL := false; FRAME_RATE := rate |}
             frame Written self in
  trace d = filter (fun e => negb (is_write e)) (trace s)
  /\ self_after d = self_after s
  /\ ended d = ended s.
Proof.
  intros Hu. cbv zeta.
  set (dbg := {| NO_SERIAL := true; FRAME_RATE := rate |}).
  set (srl := {| NO_SERIAL := false; FRAME_RATE := rate |}).
  destruct (has_valid_hand frame) eqn:Hv;
    [|rewrite (on_frame_no_valid_hand dbg frame Written self Hv),
              (on_frame_no_valid_hand srl frame Written self Hv);
      repeat split].
  destruct (Z_le_gt_dec (frame_count self) rate) as [Hc | Hc].
  - rewrite (on_frame_skip dbg frame Written self Hv Hc),
            (on_frame_skip srl frame Written self Hv Hc). repeat split.
  - rewrite (on_frame_debug_send dbg frame Written self eq_refl Hv Hc),
            (on_frame_send srl frame self eq_refl Hu Hv Hc). repeat split.
Qed.

Lemma debug_mode_mirrors_serial_mode_witness :
  link_up due = true
  /\ self_after (on_frame {| NO_SERIAL := true; FRAME_RATE := 10 |}
                   frame_with_hand Written due)
     = self_after (on_frame {| NO_SERIAL := false; FRAME_RATE := 10 |}
                     frame_with_hand Written due).
Proof.
  pose proof (debug_mode_mirrors_serial_mode 10 frame_with_hand due eq_refl)
    as (_ & H2 & _).
  split; [reflexivity | exact H2].
Defined.

(** Any callback that does not meet a failed link returns, keeps the port,
    and closes it as often as it opens it. *)
Lemma dispatch_serial (cfg : Config) (c : callback) (self : LeapListener) :
  NO_SERIAL cfg = false ->
  link_up self = true ->
  no_link_failure c ->
  let r := dispatch cfg c self in
  ended r = Normal tt
  /\ ser (self_after r) = ser self
  /\ count_of is_open_call (trace r) = count_of is_close (trace r).
Proof.
  intros Hn Hu Hc. cbv zeta. destruct c as [| | frame w]; cbn [dispatch].
  - repeat split.
  - repeat split.
  - destruct (on_frame_serial cfg frame w self Hn Hu) as (Hs & Hb & He).
    repeat split; try assumption.
    destruct He as [He | (_ & Hw & _)]; [exact He|].
    subst w. destruct Hc.
Qed.

Lemma deliver_serial (cfg : Config) (cs : list callback) :
  NO_SERIAL cfg = false ->
  Forall no_link_failure cs ->
  forall self,
  link_up self = true ->
  let r := deliver cfg cs self in
  ended r = Normal tt
  /\ ser (self_after r) = ser self
  /\ count_of is_open_call (trace r) = count_of is_close (trace r).
Proof.
  intros Hn Hcs. cbv zeta.
  induction Hcs as [|c cs Hc Hrest IH]; intros self Hu; [repeat split|].
  cbn [deliver]. rewrite bind_run.
  destruct (dispatch_serial cfg c self Hn Hu Hc) as (He & Hs & Hb).
  rewrite He. cbn [ended self_after trace].
  assert (Hu' : link_up (self_after (dispatch cfg c self)) = true)
    by (unfold link_up in *; rewrite Hs; exact Hu).
  destruct (IH _ Hu') as (I1 & I2 & I3).
  rewrite !count_of_app, Hb, I3, I2, Hs. repeat split. exact I1.
Qed.

(** X9: a run of [main] in serial mode in which no write fails other than
    by timing out: it begins with [on_init] opening the port and ends with
    [on_exit] closing it; in between every close is followed by an open, so
    that over the whole run the port is opened as often as it is closed, and
    it is closed when [main] returns. *)
Theorem main_opens_and_closes (cfg : Config) (cs : list callback)
    (start : LeapListener) :
  NO_SERIAL cfg = false ->
  Forall no_link_failure cs ->
  let r := main cfg cs start in
  ended r = Normal tt
  /\ ser (self_after r)
     = Some {| port := SERIAL_PORT; baudrate := BAUD_RATE;
               write_timeout := 1; is_open := false |}
  /\ count_of is_open_call (trace r) = count_of is_close (trace r)
  /\ exists mid,
       trace r = (Printed "Initializing" :: SerOpen :: mid
                  ++ [Printed "Exited"; SerClose])%list.
Proof.
  intros Hn Hcs. cbv zeta. unfold main.
  set (opened := {| frame_count := 0;
                    ser := Some {| port := SERIAL_PORT; baudrate := BAUD_RATE;
                                   write_timeout := 1; is_open := true |} |}).
  assert (I : on_init cfg start
              = {| ended := Normal tt; self_after := opened;
                   trace := [Printed "Initializing"; SerOpen] |}).
  { unfold on_init. rewrite Hn. destruct start. reflexivity. }
  destruct (deliver_serial cfg cs Hn Hcs opened eq_refl) as (De & Ds & Db).
  rewrite bind_run, I. cbn [ended self_after trace].
  rewrite bind_run, De. cbn [ended self_after trace].
  assert (X : on_exit cfg (self_after (deliver cfg cs opened))
              = {| ended := Normal tt;
                   self_after :=
                     {| frame_count := frame_count (self_after (deliver cfg cs opened));
                        ser := Some {| port := SERIAL_PORT; baudrate := BAUD_RATE;
                                       write_timeout := 1; is_open := false |} |};
                   trace := [Printed "Exited"; SerClose] |}).
  { unfold on_exit. rewrite Hn.
    destruct (self_after (deliver cfg cs opened)) as [c s].
    cbn [ser] in Ds. subst s. reflexivity. }
  rewrite X. cbn [ended self_after trace ser].
  split; [reflexivity|]. split; [reflexivity|]. split.
  - change (Printed "Initializing" :: SerOpen :: nil)
      with ([Printed "Initializing"] ++ [SerOpen])%list.
    rewrite !count_of_app, Db. cbn. lia.
  - exists (trace (deliver cfg cs opened)). reflexivity.
Qed.

Lemma main_opens_and_closes_witness :
  NO_SERIAL script = false
  /\ Forall no_link_failure
       [Connect; NewFrame frame_with_hand TimedOut;
        NewFrame frame_without_hands Written; Disconnect]
  /\ ended (main script
              [Connect; NewFrame frame_with_hand TimedOut;
               NewFrame frame_without_hands Written; Disconnect]
              {| frame_count := 0; ser := None |}) = Normal tt.
Proof.
  assert (Hf : Forall no_link_failure
                 [Connect; NewFrame frame_with_hand TimedOut;
                  NewFrame frame_without_hands Written; Disconnect]).
  { repeat (constructor; [exact I|]); constructor. }
  pose proof (main_opens_and_closes script _ {| frame_count := 0; ser := None |}
                eq_refl Hf) as (H1 & _).
  repeat split; assumption.
Defined.

Lemma on_frame_debug_quiet (cfg : Config) (frame : Frame) (w : write_result)
    (self : LeapListener) :
  NO_SERIAL cfg = true ->
  let r := on_frame cfg frame w self in
  ended r = Normal tt
  /\ ser (self_after r) = ser self
  /\ filter (fun e => is_write e || is_close e || is_open_call e) (trace r) = [].
Proof.
  intros Hn. cbv zeta.
  destruct (has_valid_hand frame) eqn:Hv;
    [|rewrite (on_frame_no_valid_hand cfg frame w self Hv); repeat split].
  destruct (Z_le_gt_dec (frame_count self) (FRAME_RATE cfg)) as [Hc | Hc].
  - rewrite (on_frame_skip cfg frame w self Hv Hc). repeat split.
  - rewrite (on_frame_debug_send cfg frame w self Hn Hv Hc). repeat split.
Qed.

Lemma deliver_debug (cfg : Config) (cs : list callback) :
  NO_SERIAL cfg = true ->
  forall self,
  let r := deliver cfg cs self in
  ended r = Normal tt
  /\ ser (self_after r) = ser self
  /\ filter (fun e => is_write e || is_close e || is_open_call e) (trace r) = [].
Proof.
  intros Hn. cbv zeta.
  induction cs as [|c cs IH]; intros self; [repeat split|].
  cbn [deliver]. rewrite bind_run.
  assert (D : ended (dispatch cfg c self) = Normal tt
              /\ ser (self_after (dispatch cfg c self)) = ser self
              /\ filter (fun e => is_write e || is_close e || is_open_call e)
                        (trace (dispatch cfg c self)) = []).
  { destruct c as [| | frame w]; cbn [dispatch];
      [repeat split | repeat split | apply on_frame_debug_quiet; exact Hn]. }
  destruct D as (De & Ds & Dq). rewrite De. cbn [ended self_after trace].
  destruct (IH (self_after (dispatch cfg c self))) as (I1 & I2 & I3).
  rewrite filter_app, Dq, I3, I2, Ds. repeat split. exact I1.
Qed.

(** X20: a whole run of [main] in debug mode never fails and makes no call
    on the serial port at all: [on_init] opens none, no callback writes,
    [on_exit] closes none; the console gets the first and the last line. *)
Theorem main_debug_mode (cfg : Config) (cs : list callback)
    (start : LeapListener) :
  NO_SERIAL cfg = true ->
  let r := main cfg cs start in
  ended r = Normal tt
  /\ ser (self_after r) = ser start
  /\ filter (fun e => is_write e || is_close e || is_open_call e) (trace r) = []
  /\ exists mid,
       trace r = (Printed "Initializing" :: mid ++ [Printed "Exited"])%list.
Proof.
  intros Hn. cbv zeta. unfold main.
  assert (I : on_init cfg start
              = {| ended := Normal tt;
                   self_after := {| frame_count := 0; ser := ser start |};
                   trace := [Printed "Initializing"] |}).
  { unfold on_init. rewrite Hn. destruct start. reflexivity. }
  destruct (deliver_debug cfg cs Hn {| frame_count := 0; ser := ser start |})
    as (De & Ds & Dq).
  rewrite bind_run, I. cbn [ended self_after trace].
  rewrite bind_run, De. cbn [ended self_after trace].
  assert (X : on_exit cfg
                (self_after (deliver cfg cs {| frame_count := 0; ser := ser start |}))
              = {| ended := Normal tt;
                   self_after :=
                     self_after (deliver cfg cs {| frame_count := 0; ser := ser start |});
                   trace := [Printed "Exited"] |}).
  { unfold on_exit. rewrite Hn. reflexivity. }
  rewrite X. cbn [ended self_after trace].
  split; [reflexivity|]. split; [exact Ds|]. split.
  - cbn [app filter is_write is_close is_open_call orb].
    rewrite filter_app, Dq. reflexivity.
  - exists (trace (deliver cfg cs {| frame_count := 0; ser := ser start |})).
    reflexivity.
Qed.

Lemma main_debug_mode_witness :
  NO_SERIAL {| NO_SERIAL := true; FRAME_RATE := 0 |} = true
  /\ ended (main {| NO_SERIAL := true; FRAME_RATE := 0 |}
              [Connect; NewFrame frame_with_hand LinkFailed;
               NewFrame frame_with_hand LinkFailed; Disconnect]
              {| frame_count := 0; ser := None |}) = Normal tt.
Proof.
  pose proof (main_debug_mode {| NO_SERIAL := true; FRAME_RATE := 0 |}
                [Connect; NewFrame frame_with_hand LinkFailed;
                 NewFrame frame_with_hand LinkFailed; Disconnect]
                {| frame_count := 0; ser := None |} eq_refl) as (H1 & _).
  split; [reflexivity | exact H1].
Defined.
